(** * Bounding-box algebra and overlap resolution of [bounding_box.py]

    A shallow embedding of the classes [BoundingBox] and [BoundingBoxes]
    and the properties of their methods, and of the two detection passes
    of [double_detection.py] that feed them.

    Data model.
    - Coordinates are Python [int]s (the annotations of [__init__],
      [translate] and [from_relative]): unbounded integers, here [Z].
      Where the code rounds a coordinate ([crop_image],
      [get_candidate_blocks]) it may be a [float] as well: there a
      coordinate is any Python number, read as the rational it denotes.
    - A score is a Python [float] that the code only stores, copies and
      compares ([max] in [merge]); no arithmetic is ever done on it.  A
      finite float is a rational number and the comparison of two finite
      floats is the comparison of these rationals, so scores are [Q].
    - A Python [list] is a [list]; [pop] and indexing are written out.
    - A failed unpacking ([ValueError]) is [None]. *)

From Equations.Prop Require Import Equations Logic.
From Stdlib Require Import ZArith QArith Qround Qminmax List Bool Lia Permutation.
From Stdlib Require String.
Import ListNotations.

Open Scope Z_scope.

(** ** Python built-ins used by the module *)

Module Py.

Section MinMax.
Variable A : Type.
Variable ltb : A -> A -> bool.

(** [max(a, b)]: the first argument is kept unless the second one is
    strictly greater ([b > a], that is [a < b]). *)
Definition max (a b : A) : A := if ltb a b then b else a.

(** [min(a, b)]: the first argument is kept unless the second one is
    strictly smaller. *)
Definition min (a b : A) : A := if ltb b a then b else a.
End MinMax.

Arguments max {A} ltb a b.
Arguments min {A} ltb a b.

(** [a < b] on floats, read on the rationals they denote. *)
Definition float_ltb (a b : Q) : bool :=
  match Qcompare a b with Lt => true | _ => false end.

Definition max_int : Z -> Z -> Z := max Z.ltb.
Definition min_int : Z -> Z -> Z := min Z.ltb.
Definition max_float : Q -> Q -> Q := max float_ltb.

(** A Python number, an [int] or a finite [float], and the rational that
    it denotes. *)
Class Number (num : Type) : Type := value : num -> Q.

#[global] Instance int_number : Number Z := inject_Z.
#[global] Instance float_number : Number Q := fun x => x.

(** [math.floor(x)] and [math.ceil(x)] of a number, on the rational it
    denotes: both are exact on an [int] and on a finite [float]. *)
Definition math_floor (x : Q) : Z := Qfloor x.
Definition math_ceil (x : Q) : Z := Qceiling x.

Section Slice.
Context {A : Type}.

(** Normalisation of one bound of a slice of a sequence of length [n]
    (step 1): a negative bound counts from the end, and the result is
    clipped to [0 .. n]. *)
Definition adjust (n i : Z) : Z :=
  if i <? 0 then Z.max (i + n) 0 else Z.min i n.

(** [l[start:stop]] *)
Definition slice (l : list A) (start stop : Z) : list A :=
  let n := Z.of_nat (length l) in
  let s := adjust n start in
  let e := adjust n stop in
  firstn (Z.to_nat (e - s)) (skipn (Z.to_nat s) l).

(** [l.pop(i)] for [0 <= i]: the element and the list without it;
    [None] is [IndexError]. *)
Definition pop (l : list A) (i : nat) : option (A * list A) :=
  match nth_error l i with
  | Some a => Some (a, firstn i l ++ skipn (S i) l)
  | None => None
  end.
End Slice.

End Py.

(** ** class BoundingBox *)

Record BoundingBox : Type := mkBoundingBox {
  x1 : Z;
  y1 : Z;
  x2 : Z;
  y2 : Z;
  score : Q
}.

Definition to_list (self : BoundingBox) : list Z :=
  [x1 self; y1 self; x2 self; y2 self].

Definition translate (self : BoundingBox) (dx dy : Z) : BoundingBox :=
  mkBoundingBox (x1 self + dx) (y1 self + dy) (x2 self + dx) (y2 self + dy)
                (score self).

(** [from_relative]: [block_x, block_y = candidate_block_coordinate[:2]]
    needs the slice to have exactly two elements, and
    [rel_x1, rel_y1, rel_x2, rel_y2 = detected_box_coordinate] needs exactly
    four; any other length raises. *)
Definition from_relative (detected_box_coordinate candidate_block_coordinate : list Z)
    (score : Q) : option BoundingBox :=
  match Py.slice candidate_block_coordinate 0 2 with
  | [block_x; block_y] =>
      match detected_box_coordinate with
      | [rel_x1; rel_y1; rel_x2; rel_y2] =>
          Some (mkBoundingBox (rel_x1 + block_x) (rel_y1 + block_y)
                              (rel_x2 + block_x) (rel_y2 + block_y) score)
      | _ => None
      end
  | _ => None
  end.

Definition intersects (self other : BoundingBox) : bool :=
  negb ((x2 self <? x1 other) || (x1 self >? x2 other) ||
        (y2 self <? y1 other) || (y1 self >? y2 other)).

Definition merge (self other : BoundingBox) : BoundingBox :=
  mkBoundingBox (Py.min_int (x1 self) (x1 other))
                (Py.min_int (y1 self) (y1 other))
                (Py.max_int (x2 self) (x2 other))
                (Py.max_int (y2 self) (y2 other))
                (Py.max_float (score self) (score other)).

(** ** Images and [crop_image]

    [crop_image] floors, ceils and compares the coordinates of [self] and
    does no arithmetic on them, which is exact on an [int] and on a finite
    [float] alike.  The boxes that [run.py] crops come out of
    [double_detection], where float coordinates of the model are added to
    them, so the method is written for a box whose coordinates are any
    numbers, [Num.BoundingBox]; a [BoundingBox] with the declared [int]
    coordinates is such a box, by [numbers]. *)

Module Num.

Record BoundingBox : Type := mkBoundingBox {
  x1 : Q;
  y1 : Q;
  x2 : Q;
  y2 : Q;
  score : Q
}.

End Num.

Definition numbers (self : BoundingBox) : Num.BoundingBox :=
  Num.mkBoundingBox (Py.value (x1 self)) (Py.value (y1 self))
                    (Py.value (x2 self)) (Py.value (y2 self)) (score self).

(** A NumPy image, as far as [crop_image] reads it: its first two
    dimensions and its rows of pixels. *)

Section Image.
Variable pixel : Type.

Record ndarray : Type := mkNdarray {
  height : nat;            (* image.shape[0] *)
  width : nat;             (* image.shape[1] *)
  rows : list (list pixel)
}.

(** What NumPy guarantees of an array of that shape. *)
Definition well_shaped (image : ndarray) : Prop :=
  length (rows image) = height image /\
  Forall (fun r => length r = width image) (rows image).

(** The clamped corners computed by [crop_image], as
    [(x1, y1, x2, y2)]. *)
Definition crop_window_at (self : Num.BoundingBox) (image : ndarray) : Z * Z * Z * Z :=
  let height := Z.of_nat (height image) in
  let width := Z.of_nat (width image) in
  let x1 := Py.max_int (Py.math_floor (Num.x1 self)) 0 in
  let y1 := Py.max_int (Py.math_floor (Num.y1 self)) 0 in
  let x2 := Py.min_int (Py.math_ceil (Num.x2 self)) width in
  let y2 := Py.min_int (Py.math_ceil (Num.y2 self)) height in
  (x1, y1, x2, y2).

(** [image[y1:y2, x1:x2]] *)
Definition slice2 (image : ndarray) (y1 y2 x1 x2 : Z) : ndarray :=
  let rs := map (fun r => Py.slice r x1 x2) (Py.slice (rows image) y1 y2) in
  let w := Z.of_nat (width image) in
  mkNdarray (length rs)
            (Z.to_nat (Py.adjust w x2 - Py.adjust w x1))
            rs.

Definition crop_image_at (self : Num.BoundingBox) (image : ndarray) : ndarray :=
  let '(x1, y1, x2, y2) := crop_window_at self image in
  slice2 image y1 y2 x1 x2.

(** [crop_image] on a box of the declared type. *)
Definition crop_window (self : BoundingBox) (image : ndarray) : Z * Z * Z * Z :=
  crop_window_at (numbers self) image.

Definition crop_image (self : BoundingBox) (image : ndarray) : ndarray :=
  crop_image_at (numbers self) image.
End Image.

Arguments height {pixel} _.
Arguments width {pixel} _.
Arguments rows {pixel} _.
Arguments mkNdarray {pixel} _ _ _.
Arguments well_shaped {pixel} _.
Arguments crop_window_at {pixel} _ _.
Arguments crop_image_at {pixel} _ _.
Arguments crop_window {pixel} _ _.
Arguments slice2 {pixel} _ _ _ _ _.
Arguments crop_image {pixel} _ _.

(** ** class BoundingBoxes *)

Record BoundingBoxes : Type := mkBoundingBoxes {
  boxes : list BoundingBox
}.

Definition add_box (self : BoundingBoxes) (box : BoundingBox) : BoundingBoxes :=
  mkBoundingBoxes (boxes self ++ [box]).

Definition get_all_boxes (self : BoundingBoxes) : list BoundingBox := boxes self.

Definition len (self : BoundingBoxes) : nat := length (boxes self).

(** *** The loops of [merge_intersection]

    The inner loop, from a state [(current_box, self.boxes, i)]:
<<
      while i < len(self.boxes):
          if current_box.intersects(self.boxes[i]):
              current_box = current_box.merge(self.boxes.pop(i))
          else:
              i += 1
>>
    [nth_error boxes i] is [None] exactly when [i < len(self.boxes)] fails.
    Every iteration shortens the list or advances [i], so
    [len(self.boxes) - i] decreases. *)

Lemma length_without {A} (l : list A) (i : nat) :
  (i < length l)%nat -> S (length (firstn i l ++ skipn (S i) l)) = length l.
Proof.
  intros Hi. rewrite length_app, length_firstn, length_skipn. lia.
Qed.

Lemma pop_length {A} (l : list A) (i : nat) (a : A) (l' : list A) :
  Py.pop l i = Some (a, l') -> S (length l') = length l.
Proof.
  unfold Py.pop. destruct (nth_error l i) eqn:E; [|discriminate].
  intros H. injection H as _ <-.
  apply length_without, nth_error_Some. congruence.
Qed.

Lemma pop_index {A} (l : list A) (i : nat) (a : A) (l' : list A) :
  Py.pop l i = Some (a, l') -> (i < length l)%nat.
Proof.
  unfold Py.pop. destruct (nth_error l i) eqn:E; [|discriminate].
  intros _. apply nth_error_Some. congruence.
Qed.

Equations? inner_while (current_box : BoundingBox) (boxes : list BoundingBox)
    (i : nat) : BoundingBox * list BoundingBox
    by wf (length boxes - i)%nat lt :=
  inner_while current_box boxes i with inspect (nth_error boxes i) := {
    | exist _ None _ => (current_box, boxes)
    | exist _ (Some box_i) _ with inspect (intersects current_box box_i) := {
        | exist _ false _ => inner_while current_box boxes (S i)
        | exist _ true _ with inspect (Py.pop boxes i) := {
            | exist _ (Some (popped, boxes')) _ =>
                inner_while (merge current_box popped) boxes' i
            | exist _ None _ => (current_box, boxes) } } }.
Proof.
  - pose proof (pop_length _ _ _ _ e1). pose proof (pop_index _ _ _ _ e1). lia.
  - assert ((i < length boxes0)%nat) by (apply nth_error_Some; congruence). lia.
Qed.

(** The inner loop never lengthens the list. *)
Lemma inner_while_length (current_box : BoundingBox) (boxes : list BoundingBox) (i : nat) :
  (length (snd (inner_while current_box boxes i)) <= length boxes)%nat.
Proof.
  funelim (inner_while current_box boxes i); simpl; try lia.
  - match goal with e : Py.pop _ _ = Some _ |- _ => pose proof (pop_length _ _ _ _ e) end.
    lia.
Qed.

(** The outer loop, from a state [(self.boxes, merged_boxes)]:
<<
      while self.boxes:
          current_box = self.boxes.pop(0)
          i = 0
          <inner loop>
          merged_boxes.append(current_box)
>>
    [Py.pop boxes 0] is [None] exactly when the list is empty, which is
    when the test [while self.boxes] fails. *)
Equations? outer_while (boxes merged_boxes : list BoundingBox) : list BoundingBox
    by wf (length boxes) lt :=
  outer_while boxes merged_boxes with inspect (Py.pop boxes 0) := {
    | exist _ None _ => merged_boxes
    | exist _ (Some (current_box, boxes')) _
        with inspect (inner_while current_box boxes' 0) := {
        | exist _ (current_box', boxes'') _ =>
            outer_while boxes'' (merged_boxes ++ [current_box']) } }.
Proof.
  pose proof (pop_length _ _ _ _ e).
  pose proof (inner_while_length current_box boxes' 0) as Hl.
  rewrite e0 in Hl. simpl in Hl. lia.
Qed.

(** [merge_intersection] starts the outer loop with [merged_boxes = []]
    and stores the list it ends with in [self.boxes]. *)
Definition merge_intersection (self : BoundingBoxes) : BoundingBoxes :=
  mkBoundingBoxes (outer_while (boxes self) []).

(** ** The detection pipeline of [double_detection.py]

    The layout model is layoutparser's, outside the repository.  Of a
    detected block the code reads its type label, its score and the four
    coordinates of its box.  The coordinates are numbers of some type:
    the model reports floats, which [get_candidate_blocks] rounds to
    ints, and [double_detection] hands them to [from_relative], which is
    declared for [int] coordinates. *)

Module Lp.

Record TextBlock (num : Type) : Type := mkTextBlock {
  type : String.string;
  score : Q;
  x_1 : num;
  y_1 : num;
  x_2 : num;
  y_2 : num
}.

Arguments mkTextBlock {num} _ _ _ _ _ _.
Arguments type {num} _.
Arguments score {num} _.
Arguments x_1 {num} _.
Arguments y_1 {num} _.
Arguments x_2 {num} _.
Arguments y_2 {num} _.

End Lp.

Section Candidates.
Context {num : Type} {number : Py.Number num} {pixel : Type}.

(** [get_candidate_blocks]: the loop over [layout], where a block of
    another type is skipped by [continue].  The difference and the sum of
    a coordinate and the margin are the exact ones: they are so for [int]
    coordinates, and for [float] coordinates whenever the result is a
    float (always for the default margin 0). *)
Fixpoint get_candidate_blocks (layout : list (Lp.TextBlock num)) (image : ndarray pixel)
    (space_margin : Z) (block_type : String.string)
    : list (ndarray pixel * BoundingBox) :=
  let image_copy := image in
  let '(image_x1, image_y1, image_x2, image_y2) :=
    (0, 0, Z.of_nat (width image), Z.of_nat (height image)) in
  match layout with
  | [] => []
  | block :: layout' =>
      if negb (String.eqb (Lp.type block) block_type) then
        get_candidate_blocks layout' image space_margin block_type
      else
        let x_1 := Py.max_int
          (Py.math_floor (Py.value (Lp.x_1 block) - Py.value space_margin)%Q) image_x1 in
        let y_1 := Py.max_int
          (Py.math_floor (Py.value (Lp.y_1 block) - Py.value space_margin)%Q) image_y1 in
        let x_2 := Py.min_int
          (Py.math_ceil (Py.value (Lp.x_2 block) + Py.value space_margin)%Q) image_x2 in
        let y_2 := Py.min_int
          (Py.math_ceil (Py.value (Lp.y_2 block) + Py.value space_margin)%Q) image_y2 in
        let cropped_image := slice2 image_copy y_1 y_2 x_1 x_2 in
        let candidate_rect := mkBoundingBox x_1 y_1 x_2 y_2 0 in
        (cropped_image, candidate_rect)
          :: get_candidate_blocks layout' image space_margin block_type
  end.

End Candidates.

Section Pipeline.
Variable pixel : Type.

(** [model.detect]: the layout the model finds in an image, with the
    [int] coordinates for which [from_relative] is declared. *)
Variable detect : ndarray pixel -> list (Lp.TextBlock Z).

(** [get_layout]: the model runs on a copy of the image. *)
Definition get_layout (image : ndarray pixel) : list (Lp.TextBlock Z) :=
  let image_copy := image in
  detect image_copy.

(** The inner loop of [double_detection] over the filtered layout of one
    candidate block; [None] when [from_relative] raises. *)
Fixpoint add_tables (all_boxes : BoundingBoxes) (filtered_layout : list (Lp.TextBlock Z))
    (block_rect : BoundingBox) : option BoundingBoxes :=
  match filtered_layout with
  | [] => Some all_boxes
  | table :: filtered_layout' =>
      let rel_coords := [Lp.x_1 table; Lp.y_1 table; Lp.x_2 table; Lp.y_2 table] in
      match from_relative rel_coords (to_list block_rect) (Lp.score table) with
      | Some box => add_tables (add_box all_boxes box) filtered_layout' block_rect
      | None => None
      end
  end.

(** The outer loop of [double_detection] over the candidate blocks. *)
Fixpoint double_detection_from (all_boxes : BoundingBoxes)
    (candidate_blocks : list (ndarray pixel * BoundingBox)) (score_thresh : Q)
    : option BoundingBoxes :=
  match candidate_blocks with
  | [] => Some all_boxes
  | (block, block_rect) :: candidate_blocks' =>
      let layout := get_layout block in
      let filtered_layout :=
        filter (fun block => Py.float_ltb score_thresh (Lp.score block)) layout in
      match add_tables all_boxes filtered_layout block_rect with
      | Some all_boxes' => double_detection_from all_boxes' candidate_blocks' score_thresh
      | None => None
      end
  end.

Definition double_detection (candidate_blocks : list (ndarray pixel * BoundingBox))
    (score_thresh : Q) (space_margin : Z) : option BoundingBoxes :=
  let all_boxes := mkBoundingBoxes [] in
  double_detection_from all_boxes candidate_blocks score_thresh.

Definition get_all_tables (image : ndarray pixel) (score_thresh : Q)
    (space_margin : Z) (block_type : String.string) : option BoundingBoxes :=
  let layout := get_layout image in
  let candidate_blocks := get_candidate_blocks layout image space_margin block_type in
  let all_boxes := double_detection candidate_blocks score_thresh space_margin in
  all_boxes.

End Pipeline.

Arguments get_layout {pixel} detect image.
Arguments double_detection_from {pixel} detect all_boxes candidate_blocks score_thresh.
Arguments double_detection {pixel} detect candidate_blocks score_thresh space_margin.
Arguments get_all_tables {pixel} detect image score_thresh space_margin block_type.

(** ** The loops as a scan

    The inner loop started at index [i] keeps the first [i] boxes and
    scans the others once from left to right; [scan] is that pass. *)

Fixpoint scan (current_box : BoundingBox) (rest : list BoundingBox)
    : BoundingBox * list BoundingBox :=
  match rest with
  | [] => (current_box, [])
  | b :: rest' =>
      if intersects current_box b then scan (merge current_box b) rest'
      else let '(c, kept) := scan current_box rest' in (c, b :: kept)
  end.

(** ** Vocabulary of the properties *)

(** [outer] contains [inner]: the four coordinates of [inner] lie within
    those of [outer]. *)
Definition encloses (outer inner : BoundingBox) : Prop :=
  x1 outer <= x1 inner /\ y1 outer <= y1 inner /\
  x2 inner <= x2 outer /\ y2 inner <= y2 outer.

(** [outer] contains [inner] and scores at least as high. *)
Definition dominates (outer inner : BoundingBox) : Prop :=
  encloses outer inner /\ (score inner <= score outer)%Q.

Definition covered_by (result : list BoundingBox) (b : BoundingBox) : Prop :=
  Exists (fun r => encloses r b) result.

Definition dominated_by (result : list BoundingBox) (b : BoundingBox) : Prop :=
  Exists (fun r => dominates r b) result.

(** The postcondition that the docstring of [merge_intersection] promises,
    "a list of non-intersecting BoundingBox objects": no two boxes at
    different positions of the list intersect. *)
Definition non_intersecting (l : list BoundingBox) : Prop :=
  forall i j a b, i <> j ->
    nth_error l i = Some a -> nth_error l j = Some b ->
    intersects a b = false.

(** The accumulator is settled against a list when it intersects none of
    its boxes. *)
Definition settled (current_box : BoundingBox) (remaining : list BoundingBox) : Prop :=
  forall b, In b remaining -> intersects current_box b = false.

Definition same_set (l l' : list BoundingBox) : Prop :=
  forall r, In r l <-> In r l'.

(** The ordering of the corners that [__init__] leaves to the caller. *)
Definition well_formed (b : BoundingBox) : Prop :=
  x1 b <= x2 b /\ y1 b <= y2 b.

(** The result box [r] has its score from a box of [l] that it contains. *)
Definition scored_from (l : list BoundingBox) (r : BoundingBox) : Prop :=
  Exists (fun b => encloses r b /\ score r = score b) l.

(** Same corners, and scores that denote the same number. *)
Definition same_box (a b : BoundingBox) : Prop :=
  to_list a = to_list b /\ (score a == score b)%Q.

(** [image[r, c]] for indices counted from the start; [None] is
    [IndexError]. *)
Definition pixel_at {pixel} (image : ndarray pixel) (r c : nat) : option pixel :=
  match nth_error (rows image) r with
  | Some row => nth_error row c
  | None => None
  end.

(** The box of the whole image. *)
Definition image_box {pixel} (image : ndarray pixel) : BoundingBox :=
  mkBoundingBox 0 0 (Z.of_nat (width image)) (Z.of_nat (height image)) 0.

(** The box and score of a detected block with [int] coordinates, as a
    [BoundingBox]. *)
Definition block_box (block : Lp.TextBlock Z) : BoundingBox :=
  mkBoundingBox (Lp.x_1 block) (Lp.y_1 block) (Lp.x_2 block) (Lp.y_2 block)
                (Lp.score block).

(** The box of a block grown by the margin on every side, rounded outwards
    to whole pixels and cut at the edges of the image. *)
Definition grown_box {num} {number : Py.Number num} {pixel} (image : ndarray pixel)
    (space_margin : Z) (block : Lp.TextBlock num) : BoundingBox :=
  mkBoundingBox
    (Z.max (Qfloor (Py.value (Lp.x_1 block) - inject_Z space_margin)) 0)
    (Z.max (Qfloor (Py.value (Lp.y_1 block) - inject_Z space_margin)) 0)
    (Z.min (Qceiling (Py.value (Lp.x_2 block) + inject_Z space_margin))
           (Z.of_nat (width image)))
    (Z.min (Qceiling (Py.value (Lp.y_2 block) + inject_Z space_margin))
           (Z.of_nat (height image)))
    0.

(** A model that reports, in every image, boxes with their corners in
    order that lie within the image. *)
Definition detector_in_bounds {pixel} (detect : ndarray pixel -> list (Lp.TextBlock Z))
    : Prop :=
  forall image, well_shaped image ->
    Forall (fun block => well_formed (block_box block) /\
                         encloses (image_box image) (block_box block))
           (detect image).

(** The boxes that the second pass finds in one candidate block, in the
    coordinates of the full image. *)
Definition second_pass_boxes {pixel} (detect : ndarray pixel -> list (Lp.TextBlock Z))
    (score_thresh : Q) (candidate : ndarray pixel * BoundingBox) : list BoundingBox :=
  map (fun table => translate (block_box table) (x1 (snd candidate)) (y1 (snd candidate)))
      (filter (fun table => Py.float_ltb score_thresh (Lp.score table))
              (detect (fst candidate))).

(** ** Concrete inputs *)

Definition image_2x3 : ndarray nat :=
  mkNdarray 2 3 [[1; 2; 3]; [4; 5; 6]]%nat.

(** The collection [(0,0,10,10)], [(20,20,30,30)], [(5,5,25,25)]: the seed
    does not touch the second box, which the inner loop skips for good;
    merging the third box then makes the accumulator overlap the skipped
    one. *)
Definition box_a : BoundingBox := mkBoundingBox 0 0 10 10 0.
Definition box_b : BoundingBox := mkBoundingBox 20 20 30 30 0.
Definition box_c : BoundingBox := mkBoundingBox 5 5 25 25 0.
Definition skipped_overlap : BoundingBoxes := mkBoundingBoxes [box_a; box_b; box_c].
Definition skipped_overlap_reordered : BoundingBoxes :=
  mkBoundingBoxes [box_a; box_c; box_b].

(** The chain of three boxes of the specification, with scores, in two
    orders. *)
Definition chain : BoundingBoxes :=
  mkBoundingBoxes [mkBoundingBox 0 0 10 10 (1 # 2); mkBoundingBox 5 5 15 15 (3 # 4);
                   mkBoundingBox 12 12 20 20 (1 # 4)].

Definition chain_reordered : BoundingBoxes :=
  mkBoundingBoxes [mkBoundingBox 5 5 15 15 (3 # 4); mkBoundingBox 12 12 20 20 (1 # 4);
                   mkBoundingBox 0 0 10 10 (1 # 2)].

(** Type labels, and a model that reports the whole image as one table. *)
Module Labels.
Import String.
Local Open Scope string_scope.
Definition table : string := "Table".
Definition figure : string := "Figure".
End Labels.

Definition whole_image_detector (image : ndarray nat) : list (Lp.TextBlock Z) :=
  [Lp.mkTextBlock Labels.table (9 # 10) 0 0
                  (Z.of_nat (width image)) (Z.of_nat (height image))].

(** * Properties *)

(** ** The loops are the scan *)

Lemma scan_hit (c b : BoundingBox) (rest : list BoundingBox) :
  intersects c b = true -> scan c (b :: rest) = scan (merge c b) rest.
Proof. intros H. simpl. rewrite H. reflexivity. Qed.

Lemma scan_miss (c b : BoundingBox) (rest : list BoundingBox) :
  intersects c b = false ->
  scan c (b :: rest) = (fst (scan c rest), b :: snd (scan c rest)).
Proof. intros H. simpl. rewrite H. destruct (scan c rest); reflexivity. Qed.

Lemma nth_error_split_at {A} (l : list A) (i : nat) (a : A) :
  nth_error l i = Some a ->
  skipn i l = a :: skipn (S i) l /\ firstn (S i) l = firstn i l ++ [a].
Proof.
  revert l. induction i as [|i IH]; intros [|x l] H; try discriminate.
  - injection H as ->. split; reflexivity.
  - destruct (IH l H) as [Hs Hf]. split.
    + exact Hs.
    + change (firstn (S (S i)) (x :: l)) with (x :: firstn (S i) l).
      rewrite Hf. reflexivity.
Qed.

Lemma without_split {A} (l : list A) (i : nat) :
  (i < length l)%nat ->
  firstn i (firstn i l ++ skipn (S i) l) = firstn i l /\
  skipn i (firstn i l ++ skipn (S i) l) = skipn (S i) l.
Proof.
  intros Hi.
  assert (Hl : length (firstn i l) = i) by (rewrite length_firstn; lia).
  split.
  - rewrite firstn_app, Hl, Nat.sub_diag, firstn_O, app_nil_r.
    rewrite firstn_firstn, Nat.min_id. reflexivity.
  - rewrite skipn_app, Hl, Nat.sub_diag, skipn_O.
    rewrite skipn_all2 by lia. reflexivity.
Qed.

Lemma pop_inv {A} (l : list A) (i : nat) (a : A) (l' : list A) :
  Py.pop l i = Some (a, l') ->
  nth_error l i = Some a /\ l' = firstn i l ++ skipn (S i) l.
Proof.
  unfold Py.pop. destruct (nth_error l i) eqn:E; [|discriminate].
  intros H. injection H as <- <-. split; reflexivity.
Qed.

Lemma inner_while_scan (current_box : BoundingBox) (boxes : list BoundingBox) (i : nat) :
  inner_while current_box boxes i =
  (fst (scan current_box (skipn i boxes)),
   firstn i boxes ++ snd (scan current_box (skipn i boxes))).
Proof.
  funelim (inner_while current_box boxes i).
  - (* i >= len(self.boxes) *)
    match goal with e : nth_error _ _ = None |- _ =>
      pose proof (proj1 (nth_error_None _ _) e) as Hlen end.
    rewrite skipn_all2, firstn_all2, app_nil_r by lia. reflexivity.
  - (* i += 1 *)
    match goal with
    | e : nth_error _ _ = Some _, e0 : intersects _ _ = false, IH : inner_while _ _ _ = (_, _) |- _ =>
        destruct (nth_error_split_at _ _ _ e) as [Hk Hf];
        rewrite IH, Hk, Hf, (scan_miss _ _ _ e0)
    end.
    cbn [fst snd]. rewrite <- app_assoc. reflexivity.
  - (* merge and pop *)
    match goal with
    | e : nth_error _ _ = Some _, e0 : intersects _ _ = true, e1 : Py.pop _ _ = Some _,
      IH : inner_while _ _ _ = (_, _) |- _ =>
        destruct (pop_inv _ _ _ _ e1) as [Hn Hb];
        assert (Hi : (i < length boxes0)%nat) by (apply nth_error_Some; congruence);
        assert (Hp : popped = box_i) by congruence;
        destruct (without_split boxes0 i Hi) as [Hf Hs];
        destruct (nth_error_split_at _ _ _ e) as [Hk _];
        rewrite IH, Hp, Hb, Hf, Hs, Hk, (scan_hit _ _ _ e0)
    end.
    reflexivity.
  - (* unreachable: the index was valid *)
    match goal with
    | e : nth_error _ _ = Some _, e1 : Py.pop _ _ = None |- _ =>
        pose proof e1 as E; unfold Py.pop in E; rewrite e in E; discriminate
    end.
Qed.

Lemma inner_while_0 (current_box : BoundingBox) (boxes : list BoundingBox) :
  inner_while current_box boxes 0 = scan current_box boxes.
Proof.
  rewrite inner_while_scan. simpl. destruct (scan current_box boxes); reflexivity.
Qed.

Lemma outer_while_nil (merged_boxes : list BoundingBox) :
  outer_while [] merged_boxes = merged_boxes.
Proof. simp outer_while. reflexivity. Qed.

Lemma outer_while_cons (b : BoundingBox) (rest merged_boxes : list BoundingBox) :
  outer_while (b :: rest) merged_boxes =
  outer_while (snd (scan b rest)) (merged_boxes ++ [fst (scan b rest)]).
Proof.
  rewrite (outer_while_equation_1 (b :: rest)).
  unfold Py.pop, inspect.
  cbn [nth_error firstn skipn app outer_while_unfold_clause_1].
  destruct (inspect (inner_while b rest 0)) as [[c kept] Hck].
  cbn [outer_while_unfold_clause_1_clause_2].
  rewrite inner_while_0 in Hck. rewrite Hck. reflexivity.
Qed.

(** The accumulator [merged_boxes] is only ever appended to. *)
Lemma outer_while_app (n : nat) :
  forall boxes merged_boxes, (length boxes <= n)%nat ->
    outer_while boxes merged_boxes = merged_boxes ++ outer_while boxes [].
Proof.
  induction n as [|n IH]; intros [|b rest] merged Hn; simpl in Hn; try lia;
    try (rewrite !outer_while_nil, app_nil_r; reflexivity).
  rewrite !outer_while_cons.
  assert (Hk : (length (snd (scan b rest)) <= n)%nat).
  { rewrite <- inner_while_0. pose proof (inner_while_length b rest 0). lia. }
  rewrite (IH _ (merged ++ _) Hk), (IH _ ([] ++ _) Hk), app_assoc. reflexivity.
Qed.

Lemma scan_length (c : BoundingBox) (rest : list BoundingBox) :
  (length (snd (scan c rest)) <= length rest)%nat.
Proof.
  rewrite <- inner_while_0. apply inner_while_length.
Qed.

Lemma merged_cons (b : BoundingBox) (rest : list BoundingBox) :
  outer_while (b :: rest) [] =
  fst (scan b rest) :: outer_while (snd (scan b rest)) [].
Proof.
  rewrite outer_while_cons. simpl.
  rewrite (outer_while_app _ _ _ (Nat.le_refl _)). reflexivity.
Qed.

(** ** Python's [min] and [max] are the mathematical ones *)

Lemma min_int_spec (a b : Z) : Py.min_int a b = Z.min a b.
Proof.
  unfold Py.min_int, Py.min. destruct (Z.ltb_spec b a); lia.
Qed.

Lemma max_int_spec (a b : Z) : Py.max_int a b = Z.max a b.
Proof.
  unfold Py.max_int, Py.max. destruct (Z.ltb_spec a b); lia.
Qed.

Lemma max_float_spec (a b : Q) : Py.max_float a b = Qmax a b.
Proof.
  unfold Py.max_float, Py.max, Py.float_ltb, Qmax, GenericMinMax.gmax.
  destruct (a ?= b)%Q; reflexivity.
Qed.

Lemma math_floor_int (x : Z) : Py.math_floor (inject_Z x) = x.
Proof. apply Qfloor_Z. Qed.

Lemma math_ceil_int (x : Z) : Py.math_ceil (inject_Z x) = x.
Proof. apply Qceiling_Z. Qed.

(** ** Geometry *)

Lemma encloses_refl (a : BoundingBox) : encloses a a.
Proof. unfold encloses. lia. Qed.

Lemma encloses_trans (a b c : BoundingBox) :
  encloses a b -> encloses b c -> encloses a c.
Proof. unfold encloses. lia. Qed.

Lemma merge_coords (a b : BoundingBox) :
  x1 (merge a b) = Z.min (x1 a) (x1 b) /\
  y1 (merge a b) = Z.min (y1 a) (y1 b) /\
  x2 (merge a b) = Z.max (x2 a) (x2 b) /\
  y2 (merge a b) = Z.max (y2 a) (y2 b).
Proof.
  unfold merge. cbn [x1 y1 x2 y2]. rewrite !min_int_spec, !max_int_spec. auto.
Qed.

Lemma merge_encloses_l (a b : BoundingBox) : encloses (merge a b) a.
Proof.
  destruct (merge_coords a b) as (H1 & H2 & H3 & H4).
  unfold encloses. rewrite H1, H2, H3, H4. lia.
Qed.

Lemma merge_encloses_r (a b : BoundingBox) : encloses (merge a b) b.
Proof.
  destruct (merge_coords a b) as (H1 & H2 & H3 & H4).
  unfold encloses. rewrite H1, H2, H3, H4. lia.
Qed.

(** Any box that contains both arguments contains their merge. *)
Lemma merge_least (a b r : BoundingBox) :
  encloses r a -> encloses r b -> encloses r (merge a b).
Proof.
  destruct (merge_coords a b) as (H1 & H2 & H3 & H4).
  unfold encloses. rewrite H1, H2, H3, H4. lia.
Qed.

Lemma intersects_spec (a b : BoundingBox) :
  intersects a b = true <->
  x1 b <= x2 a /\ x1 a <= x2 b /\ y1 b <= y2 a /\ y1 a <= y2 b.
Proof.
  unfold intersects.
  rewrite negb_true_iff, !orb_false_iff, !Z.ltb_ge, !Z.gtb_ltb, !Z.ltb_ge.
  tauto.
Qed.

Lemma intersects_sym (a b : BoundingBox) : intersects a b = intersects b a.
Proof.
  apply eq_true_iff_eq. rewrite !intersects_spec. tauto.
Qed.

(** Growing either box keeps an intersection. *)
Lemma intersects_mono (a a' b b' : BoundingBox) :
  encloses a' a -> encloses b' b -> intersects a b = true -> intersects a' b' = true.
Proof.
  rewrite !intersects_spec. unfold encloses. lia.
Qed.

(** ** Slices *)

Lemma slice_prefix {A} (l : list A) (k : nat) :
  (k <= length l)%nat -> Py.slice l 0 (Z.of_nat k) = firstn k l.
Proof.
  intros Hk. unfold Py.slice, Py.adjust.
  replace (0 <? 0) with false by reflexivity.
  destruct (Z.ltb_spec (Z.of_nat k) 0) as [Hneg|_]; [lia|].
  rewrite Z.min_l by lia. rewrite Z.min_l by lia.
  rewrite Z.sub_0_r, Nat2Z.id. reflexivity.
Qed.

Lemma slice_first_two {A} (a b : A) (tl : list A) :
  Py.slice (a :: b :: tl) 0 2 = [a; b].
Proof.
  apply (slice_prefix (a :: b :: tl) 2). simpl. lia.
Qed.

Lemma slice_all {A} (l : list A) :
  Py.slice l 0 (Z.of_nat (length l)) = l.
Proof.
  rewrite slice_prefix by lia. apply firstn_all.
Qed.

(** ** [merge], [from_relative], [translate], [intersects] *)

(** C5. [merge(a, b)] has the least left and top coordinates and the
    greatest right and bottom coordinates of its two arguments, and its
    score is the larger of the two scores. *)
Theorem merge_is_enclosing_rectangle (a b : BoundingBox) :
  merge a b =
  mkBoundingBox (Z.min (x1 a) (x1 b)) (Z.min (y1 a) (y1 b))
                (Z.max (x2 a) (x2 b)) (Z.max (y2 a) (y2 b))
                (Qmax (score a) (score b)).
Proof.
  unfold merge. rewrite !min_int_spec, !max_int_spec, max_float_spec.
  reflexivity.
Qed.

(** C6. [from_relative] of a local box [[rx1, ry1, rx2, ry2]], an origin
    list that starts with [bx, by] (whatever follows) and a score [s]
    returns the box shifted by [(bx, by)] with score [s]; on
    [[2,3,10,12]], [[100,200]] and [0.9] it returns
    [BoundingBox(102, 203, 110, 212, 0.9)]. *)
Theorem from_relative_absolute :
  (forall (rx1 ry1 rx2 ry2 bx by_ : Z) (tl : list Z) (s : Q),
      from_relative [rx1; ry1; rx2; ry2] (bx :: by_ :: tl) s =
      Some (mkBoundingBox (rx1 + bx) (ry1 + by_) (rx2 + bx) (ry2 + by_) s)) /\
  from_relative [2; 3; 10; 12] [100; 200] (9 # 10) =
  Some (mkBoundingBox 102 203 110 212 (9 # 10)).
Proof.
  split.
  - intros. unfold from_relative. rewrite slice_first_two. reflexivity.
  - reflexivity.
Qed.

(** C7. [translate] shifts the four coordinates by [(dx, dy)] and keeps
    the score, and two translations in a row are one translation by the
    summed deltas. *)
Theorem translate_shift_and_compose (r : BoundingBox) (dx1 dy1 dx2 dy2 : Z) :
  translate r dx1 dy1 =
    mkBoundingBox (x1 r + dx1) (y1 r + dy1) (x2 r + dx1) (y2 r + dy1) (score r) /\
  translate (translate r dx1 dy1) dx2 dy2 = translate r (dx1 + dx2) (dy1 + dy2).
Proof.
  split; [reflexivity|].
  unfold translate. cbn [x1 y1 x2 y2 score].
  f_equal; lia.
Qed.

(** C8. [intersects(a, b)] is true exactly when the boxes are separated
    along neither axis, so touching boxes intersect: [(0,0,5,5)] and
    [(5,5,10,10)] do. *)
Theorem intersects_iff_not_separated :
  (forall a b : BoundingBox,
      intersects a b = true <->
      ~ (x2 a < x1 b \/ x1 a > x2 b \/ y2 a < y1 b \/ y1 a > y2 b)) /\
  intersects (mkBoundingBox 0 0 5 5 0) (mkBoundingBox 5 5 10 10 0) = true.
Proof.
  split; [|reflexivity].
  intros a b. rewrite intersects_spec. lia.
Qed.

(** ** [crop_image] *)

Lemma crop_window_at_spec {pixel} (self : Num.BoundingBox) (image : ndarray pixel) :
  crop_window_at self image =
  (Z.max (Qfloor (Num.x1 self)) 0, Z.max (Qfloor (Num.y1 self)) 0,
   Z.min (Qceiling (Num.x2 self)) (Z.of_nat (width image)),
   Z.min (Qceiling (Num.y2 self)) (Z.of_nat (height image))).
Proof.
  unfold crop_window_at, Py.math_floor, Py.math_ceil.
  rewrite !max_int_spec, !min_int_spec. reflexivity.
Qed.

Lemma crop_window_spec {pixel} (self : BoundingBox) (image : ndarray pixel) :
  crop_window self image =
  (Z.max (x1 self) 0, Z.max (y1 self) 0,
   Z.min (x2 self) (Z.of_nat (width image)),
   Z.min (y2 self) (Z.of_nat (height image))).
Proof.
  unfold crop_window. rewrite crop_window_at_spec.
  unfold numbers, Py.value, Py.int_number. cbn [Num.x1 Num.y1 Num.x2 Num.y2].
  rewrite !Qfloor_Z, !Qceiling_Z. reflexivity.
Qed.

Lemma crop_image_unfold {pixel} (self : BoundingBox) (image : ndarray pixel) :
  crop_image self image =
  (let '(a, b, c, d) := crop_window self image in slice2 image b d a c).
Proof. reflexivity. Qed.

Lemma map_slice_all {A} (w : nat) (rs : list (list A)) :
  Forall (fun r => length r = w) rs ->
  map (fun r => Py.slice r 0 (Z.of_nat w)) rs = rs.
Proof.
  induction 1 as [|r rs Hr _ IH]; simpl; [reflexivity|].
  rewrite IH, <- Hr, slice_all. reflexivity.
Qed.

Lemma slice2_all {pixel} (image : ndarray pixel) :
  well_shaped image ->
  slice2 image 0 (Z.of_nat (height image)) 0 (Z.of_nat (width image)) = image.
Proof.
  destruct image as [h w rs]. unfold well_shaped, slice2. cbn [height width rows].
  intros [Hh Hw]. subst h.
  rewrite slice_all, (map_slice_all w rs Hw).
  f_equal. unfold Py.adjust.
  replace (0 <? 0) with false by reflexivity.
  destruct (Z.ltb_spec (Z.of_nat w) 0); lia.
Qed.

Lemma adjust_range (n i : Z) : 0 <= n -> 0 <= Py.adjust n i <= n.
Proof.
  intros Hn. unfold Py.adjust. destruct (Z.ltb_spec i 0); lia.
Qed.

Lemma adjust_nonneg (n i : Z) : 0 <= i -> Py.adjust n i = Z.min i n.
Proof.
  intros Hi. unfold Py.adjust. destruct (Z.ltb_spec i 0); [lia|reflexivity].
Qed.

Lemma slice_length {A} (l : list A) (a b : Z) :
  length (Py.slice l a b) =
  Z.to_nat (Py.adjust (Z.of_nat (length l)) b - Py.adjust (Z.of_nat (length l)) a).
Proof.
  unfold Py.slice.
  pose proof (adjust_range (Z.of_nat (length l)) a (Nat2Z.is_nonneg _)).
  pose proof (adjust_range (Z.of_nat (length l)) b (Nat2Z.is_nonneg _)).
  rewrite length_firstn, length_skipn. lia.
Qed.

Lemma slice_incl {A} (l : list A) (a b : Z) (x : A) :
  In x (Py.slice l a b) -> In x l.
Proof.
  unfold Py.slice. intros H.
  set (k := Z.to_nat (Py.adjust (Z.of_nat (length l)) a)) in *.
  set (m := Z.to_nat (Py.adjust (Z.of_nat (length l)) b - Py.adjust (Z.of_nat (length l)) a)) in *.
  rewrite <- (firstn_skipn k l). apply in_or_app. right.
  rewrite <- (firstn_skipn m (skipn k l)). apply in_or_app. left. exact H.
Qed.

Lemma nth_error_slice {A} (l : list A) (a b : Z) (i : nat) :
  0 <= a -> b <= Z.of_nat (length l) -> Z.of_nat i < b - a ->
  nth_error (Py.slice l a b) i = nth_error l (Z.to_nat a + i).
Proof.
  intros Ha Hb Hi. unfold Py.slice.
  rewrite (adjust_nonneg _ a), (adjust_nonneg _ b) by lia.
  rewrite (Z.min_l a), (Z.min_l b) by lia.
  rewrite nth_error_firstn, nth_error_skipn.
  destruct (Nat.ltb_spec i (Z.to_nat (b - a))); [reflexivity|lia].
Qed.

Lemma slice2_well_shaped {pixel} (image : ndarray pixel) (a b c d : Z) :
  well_shaped image ->
  well_shaped (slice2 image a b c d) /\
  (height (slice2 image a b c d) <= height image)%nat /\
  (width (slice2 image a b c d) <= width image)%nat.
Proof.
  destruct image as [h w rs]. unfold well_shaped, slice2. cbn [height width rows].
  intros [Hh Hw]. subst h. split; [split|split].
  - reflexivity.
  - apply Forall_map, Forall_forall. intros r Hr.
    apply slice_incl in Hr.
    rewrite slice_length, (proj1 (Forall_forall _ _) Hw r Hr). reflexivity.
  - rewrite length_map, slice_length.
    pose proof (adjust_range (Z.of_nat (length rs)) a (Nat2Z.is_nonneg _)).
    pose proof (adjust_range (Z.of_nat (length rs)) b (Nat2Z.is_nonneg _)).
    lia.
  - pose proof (adjust_range (Z.of_nat w) c (Nat2Z.is_nonneg _)).
    pose proof (adjust_range (Z.of_nat w) d (Nat2Z.is_nonneg _)).
    lia.
Qed.

(** Whatever the window, a slice only holds pixels of the image, each read
    at a row and a column that the image has. *)
Lemma slice2_pixels_from_image {pixel} (image : ndarray pixel) (a b c d : Z)
    (r k : nat) (p : pixel) :
  well_shaped image ->
  pixel_at (slice2 image a b c d) r k = Some p ->
  exists r' k', (r' < height image)%nat /\ (k' < width image)%nat /\
                pixel_at image r' k' = Some p.
Proof.
  intros [Hh Hw]. unfold pixel_at, slice2. cbn [rows].
  rewrite nth_error_map.
  destruct (nth_error (Py.slice (rows image) a b) r) as [row|] eqn:Er;
    cbn [option_map]; [|discriminate].
  intros Hp.
  apply nth_error_In, slice_incl in Er. apply nth_error_In, slice_incl in Hp.
  destruct (In_nth_error _ _ Er) as [r' Hr'].
  destruct (In_nth_error _ _ Hp) as [k' Hk'].
  exists r', k'. split; [|split].
  - rewrite <- Hh. apply nth_error_Some. congruence.
  - rewrite <- (proj1 (Forall_forall _ _) Hw row Er). apply nth_error_Some. congruence.
  - rewrite Hr'. exact Hk'.
Qed.

(** C9. [crop_image] slices the image with the corners
    [x1' = max(floor(x1), 0)], [y1' = max(floor(y1), 0)],
    [x2' = min(ceil(x2), width)], [y2' = min(ceil(y2), height)], for
    coordinates that are ints or floats.  These corners never lie before
    the first row or column nor past the last ones, and lie within the
    image on every side when the box reaches the image; every pixel of
    the crop is read at a row and a column of the image.  A box
    [(-5, 0, width + 5, height)] gives the corners [(0, 0, width, height)]
    and the crop is the whole image. *)
Theorem crop_image_clamps_to_image {pixel} (self : Num.BoundingBox)
    (image : ndarray pixel) (Hshape : well_shaped image) :
  let w := Z.of_nat (width image) in
  let h := Z.of_nat (height image) in
  let x1' := Z.max (Qfloor (Num.x1 self)) 0 in
  let y1' := Z.max (Qfloor (Num.y1 self)) 0 in
  let x2' := Z.min (Qceiling (Num.x2 self)) w in
  let y2' := Z.min (Qceiling (Num.y2 self)) h in
  crop_window_at self image = (x1', y1', x2', y2') /\
  crop_image_at self image = slice2 image y1' y2' x1' x2' /\
  (0 <= x1' /\ 0 <= y1' /\ x2' <= w /\ y2' <= h) /\
  ((Num.x1 self <= inject_Z w)%Q -> x1' <= w) /\
  ((Num.y1 self <= inject_Z h)%Q -> y1' <= h) /\
  ((0 <= Num.x2 self)%Q -> 0 <= x2') /\
  ((0 <= Num.y2 self)%Q -> 0 <= y2') /\
  (forall (r c : nat) (p : pixel),
      pixel_at (crop_image_at self image) r c = Some p ->
      exists r' c', (r' < height image)%nat /\ (c' < width image)%nat /\
                    pixel_at image r' c' = Some p) /\
  (forall s : Q,
      crop_window (mkBoundingBox (-5) 0 (w + 5) h s) image = (0, 0, w, h) /\
      crop_image (mkBoundingBox (-5) 0 (w + 5) h s) image = image).
Proof.
  intros w h x1' y1' x2' y2'.
  assert (Hw : crop_window_at self image = (x1', y1', x2', y2'))
    by apply crop_window_at_spec.
  assert (Hc : crop_image_at self image = slice2 image y1' y2' x1' x2')
    by (unfold crop_image_at; rewrite Hw; reflexivity).
  split; [exact Hw|]. split; [exact Hc|].
  split; [subst x1' y1' x2' y2'; lia|].
  split; [|split; [|split; [|split; [|split]]]].
  - intros H. pose proof (Qfloor_resp_le _ _ H) as Hf.
    rewrite Qfloor_Z in Hf. subst x1' w. lia.
  - intros H. pose proof (Qfloor_resp_le _ _ H) as Hf.
    rewrite Qfloor_Z in Hf. subst y1' h. lia.
  - intros H. pose proof (Qceiling_resp_le _ _ H) as Hf.
    change (Qceiling 0) with 0 in Hf. subst x2' w. lia.
  - intros H. pose proof (Qceiling_resp_le _ _ H) as Hf.
    change (Qceiling 0) with 0 in Hf. subst y2' h. lia.
  - intros r c p. rewrite Hc. apply slice2_pixels_from_image, Hshape.
  - intros s.
    assert (Hb : crop_window (mkBoundingBox (-5) 0 (w + 5) h s) image = (0, 0, w, h)).
    { rewrite crop_window_spec. cbn [x1 y1 x2 y2]. subst w h.
      repeat f_equal; lia. }
    split; [exact Hb|].
    rewrite crop_image_unfold, Hb. apply slice2_all, Hshape.
Qed.

Lemma crop_image_clamps_to_image_witness :
  well_shaped image_2x3 /\
  crop_window_at (Num.mkBoundingBox (3 # 2) (1 # 2) (5 # 2) (3 # 2) 0) image_2x3 =
    (1, 0, 3, 2) /\
  crop_image_at (Num.mkBoundingBox (3 # 2) (1 # 2) (5 # 2) (3 # 2) 0) image_2x3 =
    mkNdarray 2 2 [[2; 3]; [5; 6]]%nat /\
  crop_image (mkBoundingBox (-5) 0 8 2 0) image_2x3 = image_2x3.
Proof.
  assert (Hs : well_shaped image_2x3).
  { split; [reflexivity|]. repeat constructor. }
  split; [exact Hs|].
  pose proof (crop_image_clamps_to_image
                (Num.mkBoundingBox (3 # 2) (1 # 2) (5 # 2) (3 # 2) 0) image_2x3 Hs)
    as (Hw & Hc & _ & _ & _ & _ & _ & _ & Hall).
  split; [exact Hw|]. split; [exact Hc|].
  exact (proj2 (Hall 0%Q)).
Defined.

(** ** [merge_intersection]: what the result keeps of the input *)

Lemma dominates_refl (a : BoundingBox) : dominates a a.
Proof. split; [apply encloses_refl|apply Qle_refl]. Qed.

Lemma dominates_trans (a b c : BoundingBox) :
  dominates a b -> dominates b c -> dominates a c.
Proof.
  intros [He Hs] [He' Hs']. split.
  - eapply encloses_trans; eassumption.
  - eapply Qle_trans; eassumption.
Qed.

Lemma merge_dominates_l (a b : BoundingBox) : dominates (merge a b) a.
Proof.
  split; [apply merge_encloses_l|].
  unfold merge. cbn [score]. rewrite max_float_spec. apply Q.le_max_l.
Qed.

Lemma merge_dominates_r (a b : BoundingBox) : dominates (merge a b) b.
Proof.
  split; [apply merge_encloses_r|].
  unfold merge. cbn [score]. rewrite max_float_spec. apply Q.le_max_r.
Qed.

(** Coverage, for any preorder on boxes in which a merge is above both of
    its arguments. *)
Section Absorption.
Variable above : BoundingBox -> BoundingBox -> Prop.
Hypothesis above_refl : forall a, above a a.
Hypothesis above_trans : forall a b c, above a b -> above b c -> above a c.
Hypothesis above_merge_l : forall a b, above (merge a b) a.
Hypothesis above_merge_r : forall a b, above (merge a b) b.

(** The accumulator of a scan is above the seed. *)
Lemma scan_above_seed (rest : list BoundingBox) :
  forall c, above (fst (scan c rest)) c.
Proof.
  induction rest as [|b rest IH]; intros c.
  - apply above_refl.
  - destruct (intersects c b) eqn:E.
    + rewrite (scan_hit _ _ _ E).
      eapply above_trans; [apply IH|apply above_merge_l].
    + rewrite (scan_miss _ _ _ E). apply IH.
Qed.

(** A scanned box is either kept or absorbed by the accumulator. *)
Lemma scan_kept_or_absorbed (rest : list BoundingBox) :
  forall c b, In b rest ->
    In b (snd (scan c rest)) \/ above (fst (scan c rest)) b.
Proof.
  induction rest as [|a rest IH]; intros c b [].
  - subst a. destruct (intersects c b) eqn:E.
    + rewrite (scan_hit _ _ _ E). right.
      eapply above_trans; [apply scan_above_seed|apply above_merge_r].
    + rewrite (scan_miss _ _ _ E). left. left. reflexivity.
  - destruct (intersects c a) eqn:E.
    + rewrite (scan_hit _ _ _ E). apply IH. assumption.
    + rewrite (scan_miss _ _ _ E). cbn [fst snd].
      destruct (IH c b H) as [Hk|He]; [left; right; exact Hk|right; exact He].
Qed.

Lemma merged_above (n : nat) :
  forall boxes, (length boxes <= n)%nat ->
    Forall (fun b => Exists (fun r => above r b) (outer_while boxes [])) boxes.
Proof.
  induction n as [|n IH]; intros [|s rest] Hn; simpl in Hn; try lia;
    try constructor.
  - rewrite merged_cons. apply Exists_cons_hd, scan_above_seed.
  - rewrite merged_cons. apply Forall_forall. intros b Hb.
    destruct (scan_kept_or_absorbed rest s b Hb) as [Hk|He].
    + apply Exists_cons_tl.
      assert (Hl : (length (snd (scan s rest)) <= n)%nat)
        by (pose proof (scan_length s rest); lia).
      exact (proj1 (Forall_forall _ _) (IH _ Hl) b Hk).
    + apply Exists_cons_hd. exact He.
Qed.
End Absorption.

Lemma merged_covers (boxes : list BoundingBox) :
  Forall (covered_by (outer_while boxes [])) boxes.
Proof.
  apply (merged_above encloses encloses_refl encloses_trans
           merge_encloses_l merge_encloses_r (length boxes)).
  lia.
Qed.

Lemma merged_dominates (boxes : list BoundingBox) :
  Forall (dominated_by (outer_while boxes [])) boxes.
Proof.
  apply (merged_above dominates dominates_refl dominates_trans
           merge_dominates_l merge_dominates_r (length boxes)).
  lia.
Qed.

Lemma merged_length (n : nat) :
  forall boxes, (length boxes <= n)%nat ->
    (length (outer_while boxes []) <= length boxes)%nat.
Proof.
  induction n as [|n IH]; intros [|s rest] Hn; simpl in Hn; try lia.
  - rewrite outer_while_nil. simpl. lia.
  - rewrite outer_while_nil. simpl. lia.
  - rewrite merged_cons. simpl.
    pose proof (scan_length s rest) as Hl.
    assert (Hk : (length (snd (scan s rest)) <= n)%nat) by lia.
    specialize (IH _ Hk). lia.
Qed.

(** C10. After [merge_intersection] every box of the collection is
    contained in some box of the result, and the result has at most as
    many boxes as the collection had. *)
Theorem merge_intersection_keeps_coverage (self : BoundingBoxes) :
  Forall (covered_by (boxes (merge_intersection self))) (boxes self) /\
  (len (merge_intersection self) <= len self)%nat.
Proof.
  unfold len, merge_intersection. cbn [boxes]. split.
  - apply merged_covers.
  - apply (merged_length (length (boxes self))). lia.
Qed.

(** ** [merge_intersection]: the promised postcondition *)

Lemma non_intersecting_cons (b : BoundingBox) (rest : list BoundingBox) :
  non_intersecting (b :: rest) -> settled b rest /\ non_intersecting rest.
Proof.
  intros H. split.
  - intros r Hr. apply In_nth_error in Hr as [j Hj].
    apply (H 0%nat (S j)); [discriminate|reflexivity|exact Hj].
  - intros i j a c Hij Ha Hc.
    apply (H (S i) (S j)); [congruence|exact Ha|exact Hc].
Qed.

(** A settled accumulator merges nothing. *)
Lemma scan_settled (rest : list BoundingBox) (c : BoundingBox) :
  settled c rest -> scan c rest = (c, rest).
Proof.
  induction rest as [|b rest IH]; intros Hs; [reflexivity|].
  rewrite scan_miss by (apply Hs; left; reflexivity).
  rewrite IH by (intros r Hr; apply Hs; right; exact Hr).
  reflexivity.
Qed.

(** On a collection that already is non-intersecting, [merge_intersection]
    changes nothing: were its result always non-intersecting, a second
    call would be the identity. *)
Lemma merge_intersection_fixes_non_intersecting (self : BoundingBoxes) :
  non_intersecting (boxes self) -> merge_intersection self = self.
Proof.
  destruct self as [l]. unfold merge_intersection. cbn [boxes].
  intros H. f_equal.
  induction l as [|b rest IH]; [apply outer_while_nil|].
  apply non_intersecting_cons in H as [Hs Hr].
  rewrite merged_cons, (scan_settled _ _ Hs). cbn [fst snd].
  rewrite (IH Hr). reflexivity.
Qed.

(** *** What the postcondition would give

    Properties that pass from the boxes of the collection to the boxes of
    the result, because merging two intersecting boxes keeps them. *)

Section Closure.
Variable inv : BoundingBox -> Prop.
Hypothesis inv_merge :
  forall a b, inv a -> inv b -> intersects a b = true -> inv (merge a b).

Lemma scan_closed (rest : list BoundingBox) :
  forall c, inv c -> Forall inv rest ->
    inv (fst (scan c rest)) /\ Forall inv (snd (scan c rest)).
Proof.
  induction rest as [|b rest IH]; intros c Hc Hrest.
  - split; [exact Hc|constructor].
  - inversion Hrest as [|? ? Hb Hrest']; subst.
    destruct (intersects c b) eqn:E.
    + rewrite (scan_hit _ _ _ E). apply IH; [apply inv_merge|]; assumption.
    + rewrite (scan_miss _ _ _ E). cbn [fst snd].
      destruct (IH c Hc Hrest') as [H1 H2].
      split; [exact H1|constructor; assumption].
Qed.

Lemma merged_closed (n : nat) :
  forall boxes, (length boxes <= n)%nat ->
    Forall inv boxes -> Forall inv (outer_while boxes []).
Proof.
  induction n as [|n IH]; intros [|s rest] Hn Hall; simpl in Hn; try lia;
    try (rewrite outer_while_nil; constructor).
  inversion Hall as [|? ? Hs Hrest]; subst.
  rewrite merged_cons.
  destruct (scan_closed rest s Hs Hrest) as [H1 H2].
  constructor; [exact H1|].
  apply IH; [pose proof (scan_length s rest); lia|exact H2].
Qed.
End Closure.

Lemma merge_well_formed (a b : BoundingBox) :
  well_formed a -> well_formed b -> intersects a b = true ->
  well_formed (merge a b).
Proof.
  destruct (merge_coords a b) as (H1 & H2 & H3 & H4).
  unfold well_formed. rewrite H1, H2, H3, H4. lia.
Qed.

(** Two boxes that contain a common well-formed box intersect. *)
Lemma common_box_intersects (r r' b : BoundingBox) :
  well_formed b -> encloses r b -> encloses r' b -> intersects r r' = true.
Proof.
  rewrite intersects_spec. unfold well_formed, encloses. lia.
Qed.

Lemma non_intersecting_unique (l : list BoundingBox) (a b : BoundingBox) :
  non_intersecting l -> In a l -> In b l -> intersects a b = true -> a = b.
Proof.
  intros Hl Ha Hb Hab.
  apply In_nth_error in Ha as [i Hi]. apply In_nth_error in Hb as [j Hj].
  destruct (Nat.eq_dec i j) as [->|Hne]; [congruence|].
  rewrite (Hl i j a b Hne Hi Hj) in Hab. discriminate.
Qed.

Lemma covered_merge (result : list BoundingBox) (a b : BoundingBox) :
  non_intersecting result ->
  covered_by result a -> covered_by result b -> intersects a b = true ->
  covered_by result (merge a b).
Proof.
  intros Hr Ha Hb Hab.
  apply Exists_exists in Ha as (s & Hs & Hsa).
  apply Exists_exists in Hb as (s' & Hs' & Hsb).
  assert (s = s') as <-.
  { apply (non_intersecting_unique result); try assumption.
    exact (intersects_mono _ _ _ _ Hsa Hsb Hab). }
  apply Exists_exists. exists s. split; [exact Hs|].
  apply merge_least; assumption.
Qed.

Lemma scored_merge (l : list BoundingBox) (a b : BoundingBox) :
  scored_from l a -> scored_from l b -> intersects a b = true ->
  scored_from l (merge a b).
Proof.
  intros Ha Hb _.
  assert (Hsc : score (merge a b) = score a \/ score (merge a b) = score b).
  { unfold merge, Py.max_float, Py.max. cbn [score].
    destruct (Py.float_ltb (score a) (score b)); auto. }
  destruct Hsc as [E|E]; [apply Exists_exists in Ha as (w & Hw & He & Hs)
                         |apply Exists_exists in Hb as (w & Hw & He & Hs)];
    apply Exists_exists; exists w; (split; [exact Hw|]); split;
      try congruence.
  - eapply encloses_trans; [apply merge_encloses_l|exact He].
  - eapply encloses_trans; [apply merge_encloses_r|exact He].
Qed.

Lemma scored_from_self (l : list BoundingBox) : Forall (scored_from l) l.
Proof.
  apply Forall_forall. intros b Hb. apply Exists_exists.
  exists b. split; [exact Hb|]. split; [apply encloses_refl|reflexivity].
Qed.

Lemma encloses_antisym (a b : BoundingBox) :
  encloses a b -> encloses b a -> to_list a = to_list b.
Proof.
  unfold encloses, to_list. intros H H'.
  replace (x1 b) with (x1 a) by lia. replace (y1 b) with (y1 a) by lia.
  replace (x2 b) with (x2 a) by lia. replace (y2 b) with (y2 a) by lia.
  reflexivity.
Qed.

Lemma merged_inside_other (l l' : list BoundingBox) :
  Permutation l l' -> non_intersecting (outer_while l' []) ->
  Forall (covered_by (outer_while l' [])) (outer_while l []).
Proof.
  intros Hp Hni.
  apply (merged_closed _ (fun a b => covered_merge _ a b Hni) (length l) l (Nat.le_refl _)).
  apply (Permutation_Forall (Permutation_sym Hp)), merged_covers.
Qed.

Lemma merged_well_formed (l : list BoundingBox) :
  Forall well_formed l -> Forall well_formed (outer_while l []).
Proof.
  apply (merged_closed _ merge_well_formed (length l) l (Nat.le_refl _)).
Qed.

Lemma merged_scored (l : list BoundingBox) :
  Forall (scored_from l) (outer_while l []).
Proof.
  apply (merged_closed _ (scored_merge l) (length l) l (Nat.le_refl _)).
  apply scored_from_self.
Qed.

(** The score of a result box is at most the score of any result box of
    the other order that contains it. *)
Lemma merged_score_le (l l' : list BoundingBox) (r s : BoundingBox) :
  Permutation l l' -> Forall well_formed l ->
  non_intersecting (outer_while l' []) ->
  In r (outer_while l []) -> In s (outer_while l' []) -> encloses s r ->
  (score r <= score s)%Q.
Proof.
  intros Hp Hwf Hni Hr Hs Hsr.
  pose proof (proj1 (Forall_forall _ _) (merged_scored l) r Hr) as Hw.
  apply Exists_exists in Hw as (b & Hb & Hrb & Hscore).
  pose proof (proj1 (Forall_forall _ _) (merged_dominates l') b
                (Permutation_in _ Hp Hb)) as Hd.
  apply Exists_exists in Hd as (s' & Hs' & [Hs'b Hle]).
  assert (s = s') as <-.
  { apply (non_intersecting_unique _ _ _ Hni Hs Hs').
    apply (common_box_intersects _ _ b).
    - exact (proj1 (Forall_forall _ _) Hwf b Hb).
    - eapply encloses_trans; eassumption.
    - exact Hs'b. }
  rewrite Hscore. exact Hle.
Qed.

(** Had both results the promised postcondition, the order of the
    collection would not matter: every box of one result is a box of the
    other, with the same corners and an equal score. *)
Lemma order_irrelevant_when_non_intersecting (self other : BoundingBoxes) :
  Permutation (boxes self) (boxes other) ->
  Forall well_formed (boxes self) ->
  non_intersecting (boxes (merge_intersection self)) ->
  non_intersecting (boxes (merge_intersection other)) ->
  Forall (fun r => Exists (same_box r) (boxes (merge_intersection other)))
         (boxes (merge_intersection self)).
Proof.
  destruct self as [l], other as [l']. unfold merge_intersection. cbn [boxes].
  intros Hp Hwf Hni Hni'.
  assert (Hwf' : Forall well_formed l') by exact (Permutation_Forall Hp Hwf).
  apply Forall_forall. intros r Hr.
  pose proof (proj1 (Forall_forall _ _) (merged_inside_other l l' Hp Hni') r Hr) as Hc.
  apply Exists_exists in Hc as (s & Hs & Hsr).
  pose proof (proj1 (Forall_forall _ _)
                (merged_inside_other l' l (Permutation_sym Hp) Hni) s Hs) as Hc'.
  apply Exists_exists in Hc' as (r' & Hr' & Hr's).
  assert (r = r') as <-.
  { apply (non_intersecting_unique _ _ _ Hni Hr Hr').
    apply (common_box_intersects _ _ r).
    - exact (proj1 (Forall_forall _ _) (merged_well_formed l Hwf) r Hr).
    - apply encloses_refl.
    - eapply encloses_trans; eassumption. }
  apply Exists_exists. exists s. split; [exact Hs|]. split.
  - apply encloses_antisym; assumption.
  - apply Qle_antisym.
    + exact (merged_score_le l l' r s Hp Hwf Hni' Hr Hs Hsr).
    + exact (merged_score_le l' l s r (Permutation_sym Hp) Hwf' Hni Hs Hr Hr's).
Qed.

Lemma non_intersecting_single (b : BoundingBox) : non_intersecting [b].
Proof.
  intros [|i] [|j] a c Hij Ha Hc; try congruence;
    try (destruct i; discriminate); destruct j; discriminate.
Qed.

(** The chain of the specification, in two orders: both results are the
    single box [(0,0,20,20)], as the lemma above says they must agree. *)
Example chain_merges_to_one_box :
  boxes (merge_intersection chain) = [mkBoundingBox 0 0 20 20 (3 # 4)] /\
  boxes (merge_intersection chain_reordered) = [mkBoundingBox 0 0 20 20 (3 # 4)].
Proof. split; reflexivity. Qed.

Example chain_order_irrelevant :
  Forall (fun r => Exists (same_box r) (boxes (merge_intersection chain_reordered)))
         (boxes (merge_intersection chain)).
Proof.
  apply order_irrelevant_when_non_intersecting.
  - simpl. apply Permutation_sym.
    eapply perm_trans; [apply perm_skip, perm_swap|apply perm_swap].
  - repeat constructor; simpl; lia.
  - rewrite (proj1 chain_merges_to_one_box). apply non_intersecting_single.
  - rewrite (proj2 chain_merges_to_one_box). apply non_intersecting_single.
Qed.

Example merge_intersection_empty :
  merge_intersection (mkBoundingBoxes []) = mkBoundingBoxes [].
Proof. reflexivity. Qed.

Example merge_intersection_single (b : BoundingBox) :
  merge_intersection (mkBoundingBoxes [b]) = mkBoundingBoxes [b].
Proof. apply merge_intersection_fixes_non_intersecting, non_intersecting_single. Qed.

(** *** The single pass of the inner loop *)

(** A second way to the same failure, which no rescan for the seed would
    repair: a box already appended to [merged_boxes] is never compared
    with the accumulators built after it.  Here the first box touches
    neither strip, and the two strips merge into a box that contains it. *)
Example appended_box_is_never_rechecked :
  boxes (merge_intersection
           (mkBoundingBoxes [mkBoundingBox 10 10 11 11 0; mkBoundingBox 0 0 20 1 0;
                             mkBoundingBox 0 0 1 20 0])) =
    [mkBoundingBox 10 10 11 11 0; mkBoundingBox 0 0 20 20 0] /\
  intersects (mkBoundingBox 10 10 11 11 0) (mkBoundingBox 0 0 20 20 0) = true.
Proof. split; reflexivity. Qed.

(** C1. On [skipped_overlap] the result of [merge_intersection] is
    [(0,0,25,25)], [(20,20,30,30)], two boxes that intersect: the result
    is not non-intersecting. *)
Theorem merge_intersection_result_intersects :
  boxes (merge_intersection skipped_overlap) =
    [mkBoundingBox 0 0 25 25 0; mkBoundingBox 20 20 30 30 0] /\
  intersects (mkBoundingBox 0 0 25 25 0) (mkBoundingBox 20 20 30 30 0) = true /\
  ~ non_intersecting (boxes (merge_intersection skipped_overlap)).
Proof.
  split; [reflexivity|]. split; [reflexivity|].
  intros H.
  specialize (H 0%nat 1%nat _ _ (Nat.neq_0_succ 0) eq_refl eq_refl).
  discriminate H.
Qed.

(** C2. For the seed [(0,0,10,10)] the inner loop ends after one pass
    with the accumulator [(0,0,25,25)] while [(20,20,30,30)], still in the
    collection, intersects it: the accumulator is appended unsettled. *)
Theorem inner_while_appends_unsettled :
  inner_while box_a [box_b; box_c] 0 =
    (mkBoundingBox 0 0 25 25 0, [box_b]) /\
  ~ settled (fst (inner_while box_a [box_b; box_c] 0))
            (snd (inner_while box_a [box_b; box_c] 0)).
Proof.
  split; [reflexivity|].
  intros H. specialize (H box_b (or_introl eq_refl)). discriminate H.
Qed.

(** C3. On [skipped_overlap] a second call of [merge_intersection]
    merges the two boxes the first call left, so it does not return what
    the first call returned. *)
Theorem merge_intersection_twice_differs :
  boxes (merge_intersection (merge_intersection skipped_overlap)) =
    [mkBoundingBox 0 0 30 30 0] /\
  merge_intersection (merge_intersection skipped_overlap) <>
  merge_intersection skipped_overlap.
Proof.
  split; [reflexivity|]. intros H. discriminate H.
Qed.

(** C4. [skipped_overlap_reordered] holds the boxes of [skipped_overlap]
    in another order, and [merge_intersection] returns the single box
    [(0,0,30,30)] on the one and two boxes on the other: not the same set. *)
Theorem merge_intersection_depends_on_order :
  Permutation (boxes skipped_overlap) (boxes skipped_overlap_reordered) /\
  boxes (merge_intersection skipped_overlap) =
    [mkBoundingBox 0 0 25 25 0; mkBoundingBox 20 20 30 30 0] /\
  boxes (merge_intersection skipped_overlap_reordered) =
    [mkBoundingBox 0 0 30 30 0] /\
  ~ same_set (boxes (merge_intersection skipped_overlap))
             (boxes (merge_intersection skipped_overlap_reordered)).
Proof.
  split; [apply perm_skip, perm_swap|].
  split; [reflexivity|]. split; [reflexivity|].
  intros H.
  destruct (proj1 (H (mkBoundingBox 20 20 30 30 0)) (or_intror (or_introl eq_refl)))
    as [E|[]].
  discriminate E.
Qed.

(** * Further properties of the code *)

(** ** [to_list], [from_relative], [translate] *)

Lemma slice_from_start {A} (l : list A) (k : nat) :
  Py.slice l 0 (Z.of_nat k) = firstn k l.
Proof.
  destruct (Nat.le_gt_cases k (length l)) as [Hk|Hk].
  - apply slice_prefix, Hk.
  - unfold Py.slice, Py.adjust.
    replace (0 <? 0) with false by reflexivity.
    destruct (Z.ltb_spec (Z.of_nat k) 0) as [Hneg|_]; [lia|].
    rewrite (Z.min_l 0) by lia. rewrite (Z.min_r (Z.of_nat k)) by lia.
    rewrite Z.sub_0_r, Nat2Z.id. cbn [Z.to_nat skipn].
    rewrite firstn_all, firstn_all2 by lia. reflexivity.
Qed.

(** X1. [from_relative] raises exactly when the detected box has not four
    coordinates or the block coordinate has fewer than two. *)
Theorem from_relative_raises_iff (detected block : list Z) (s : Q) :
  from_relative detected block s = None <->
  length detected <> 4%nat \/ (length block < 2)%nat.
Proof.
  unfold from_relative.
  rewrite (slice_from_start block 2 : Py.slice block 0 2 = firstn 2 block).
  destruct block as [|bx [|by_ tl]]; cbn [firstn length].
  - split; [intros _; right; lia|reflexivity].
  - split; [intros _; right; lia|reflexivity].
  - destruct detected as [|a [|b [|c [|d [|e rest]]]]]; cbn [length];
      (split; [intros H; try discriminate H; left; lia
              |intros [H|H]; try reflexivity; lia]).
Qed.

(** X2. Given the coordinate list of a box and the coordinate list of a
    block, [from_relative] returns the box translated by the top-left
    corner of the block. *)
Theorem from_relative_translates (r block_rect : BoundingBox) :
  from_relative (to_list r) (to_list block_rect) (score r) =
  Some (translate r (x1 block_rect) (y1 block_rect)).
Proof.
  unfold from_relative, to_list.
  rewrite slice_first_two. reflexivity.
Qed.

(** X3. [to_list] loses nothing but the score: making the box again from
    its list, relative to the origin, gives the box back. *)
Theorem from_relative_to_list_roundtrip (r : BoundingBox) :
  from_relative (to_list r) [0; 0] (score r) = Some r.
Proof.
  destruct r as [a b c d s]. unfold from_relative, to_list.
  rewrite slice_first_two. cbn [x1 y1 x2 y2 score].
  rewrite !Z.add_0_r. reflexivity.
Qed.

(** X4. A translation by zero changes nothing, and the opposite
    translation undoes a translation. *)
Theorem translate_inverse (r : BoundingBox) (dx dy : Z) :
  translate r 0 0 = r /\
  translate (translate r dx dy) (- dx) (- dy) = r.
Proof.
  destruct r as [a b c d s]. unfold translate. cbn [x1 y1 x2 y2 score].
  split; f_equal; lia.
Qed.

(** X5. Translating two boxes by the same deltas changes neither whether
    they intersect, nor whether one contains the other, nor whether a box
    has its corners in order. *)
Theorem translate_preserves_geometry (a b : BoundingBox) (dx dy : Z) :
  intersects (translate a dx dy) (translate b dx dy) = intersects a b /\
  (encloses (translate a dx dy) (translate b dx dy) <-> encloses a b) /\
  (well_formed (translate a dx dy) <-> well_formed a).
Proof.
  split; [|split].
  - apply eq_true_iff_eq. rewrite !intersects_spec.
    unfold translate. cbn [x1 y1 x2 y2]. lia.
  - unfold encloses, translate. cbn [x1 y1 x2 y2]. lia.
  - unfold well_formed, translate. cbn [x1 y1 x2 y2]. lia.
Qed.

Lemma merge_min_max (a b : BoundingBox) :
  merge a b =
  mkBoundingBox (Z.min (x1 a) (x1 b)) (Z.min (y1 a) (y1 b))
                (Z.max (x2 a) (x2 b)) (Z.max (y2 a) (y2 b))
                (Py.max_float (score a) (score b)).
Proof.
  unfold merge. rewrite !min_int_spec, !max_int_spec. reflexivity.
Qed.

(** X6. Merging two translated boxes is translating their merge. *)
Theorem merge_translate (a b : BoundingBox) (dx dy : Z) :
  merge (translate a dx dy) (translate b dx dy) = translate (merge a b) dx dy.
Proof.
  rewrite !merge_min_max. unfold translate.
  cbn [x1 y1 x2 y2 score].
  rewrite !Z.add_min_distr_r, !Z.add_max_distr_r. reflexivity.
Qed.

(** ** [intersects] and [merge] as an algebra *)

(** X7. [intersects] does not depend on the order of its two boxes. *)
Theorem intersects_symmetric (a b : BoundingBox) :
  intersects a b = intersects b a.
Proof.
  apply eq_true_iff_eq. rewrite !intersects_spec. tauto.
Qed.

(** X8. A box intersects itself exactly when its corners are in order: a
    box with [x1 > x2] or [y1 > y2] does not even intersect itself. *)
Theorem intersects_self_iff_well_formed (a : BoundingBox) :
  intersects a a = true <-> well_formed a.
Proof.
  rewrite intersects_spec. unfold well_formed. tauto.
Qed.

(** X9. [merge(a, b)] is the least box that contains both: a box contains
    the merge exactly when it contains [a] and [b]. *)
Theorem merge_least_upper_bound (a b r : BoundingBox) :
  encloses r (merge a b) <-> encloses r a /\ encloses r b.
Proof.
  rewrite merge_min_max. unfold encloses. cbn [x1 y1 x2 y2]. lia.
Qed.

Lemma max_float_self (s : Q) : Py.max_float s s = s.
Proof.
  unfold Py.max_float, Py.max. destruct (Py.float_ltb s s); reflexivity.
Qed.

(** X10. [merge] is idempotent, and commutative and associative up to
    the representation of equal scores. *)
Theorem merge_semilattice (a b c : BoundingBox) :
  merge a a = a /\
  same_box (merge a b) (merge b a) /\
  same_box (merge (merge a b) c) (merge a (merge b c)).
Proof.
  split; [|split].
  - destruct a as [p q r s t]. rewrite merge_min_max. cbn [x1 y1 x2 y2 score].
    rewrite !Z.min_id, !Z.max_id, max_float_self. reflexivity.
  - rewrite !merge_min_max. unfold same_box, to_list. cbn [x1 y1 x2 y2 score].
    rewrite !max_float_spec. split.
    + rewrite (Z.min_comm (x1 a)), (Z.min_comm (y1 a)),
        (Z.max_comm (x2 a)), (Z.max_comm (y2 a)). reflexivity.
    + apply Q.max_comm.
  - rewrite !merge_min_max. unfold same_box, to_list. cbn [x1 y1 x2 y2 score].
    rewrite !max_float_spec. split.
    + rewrite !Z.min_assoc, !Z.max_assoc. reflexivity.
    + symmetry. apply Q.max_assoc.
Qed.

(** X11. Merging never loses an intersection: a box that intersects [a]
    intersects every merge that [a] takes part in. *)
Theorem merge_keeps_intersections (a b c : BoundingBox) :
  intersects a c = true ->
  intersects (merge a b) c = true /\ intersects (merge b a) c = true.
Proof.
  intros H. split.
  - exact (intersects_mono _ _ _ _ (merge_encloses_l a b) (encloses_refl c) H).
  - exact (intersects_mono _ _ _ _ (merge_encloses_r b a) (encloses_refl c) H).
Qed.

Lemma merge_keeps_intersections_witness :
  intersects box_a box_c = true /\
  intersects (merge box_a box_b) box_c = true /\
  intersects (merge box_b box_a) box_c = true.
Proof.
  split; [reflexivity|].
  apply (merge_keeps_intersections box_a box_b box_c). reflexivity.
Defined.

(** ** [crop_image]: the array it returns *)

(** X12. The crop of a well-shaped image is a well-shaped image, never
    taller nor wider than the image it is cut from, whatever the box. *)
Theorem crop_image_well_shaped {pixel} (self : BoundingBox) (image : ndarray pixel) :
  well_shaped image ->
  well_shaped (crop_image self image) /\
  (height (crop_image self image) <= height image)%nat /\
  (width (crop_image self image) <= width image)%nat.
Proof.
  intros Hs. rewrite crop_image_unfold.
  destruct (crop_window self image) as [[[a b] c] d].
  apply slice2_well_shaped, Hs.
Qed.

Lemma crop_image_well_shaped_witness :
  well_shaped image_2x3 /\
  well_shaped (crop_image (mkBoundingBox 1 (-3) 7 1 0) image_2x3) /\
  (height (crop_image (mkBoundingBox 1 (-3) 7 1 0) image_2x3) <= 2)%nat /\
  (width (crop_image (mkBoundingBox 1 (-3) 7 1 0) image_2x3) <= 3)%nat.
Proof.
  assert (Hs : well_shaped image_2x3).
  { split; [reflexivity|]. repeat constructor. }
  split; [exact Hs|].
  exact (crop_image_well_shaped (mkBoundingBox 1 (-3) 7 1 0) image_2x3 Hs).
Defined.

(** X13. For a box whose right and bottom coordinates are not negative,
    the crop of a well-shaped image has the size of the clamped window,
    and its pixel [(r, c)] is the pixel of the image at the window's
    top-left corner shifted by [(r, c)]. *)
Theorem crop_image_pixels {pixel} (self : BoundingBox) (image : ndarray pixel) :
  well_shaped image -> 0 <= x2 self -> 0 <= y2 self ->
  let left := Z.max (x1 self) 0 in
  let top := Z.max (y1 self) 0 in
  let right := Z.min (x2 self) (Z.of_nat (width image)) in
  let bottom := Z.min (y2 self) (Z.of_nat (height image)) in
  height (crop_image self image) = Z.to_nat (bottom - top) /\
  width (crop_image self image) = Z.to_nat (right - left) /\
  forall r c : nat,
    Z.of_nat r < bottom - top -> Z.of_nat c < right - left ->
    pixel_at (crop_image self image) r c =
    pixel_at image (Z.to_nat top + r) (Z.to_nat left + c).
Proof.
  intros Hs Hx Hy left top right bottom.
  rewrite crop_image_unfold. rewrite crop_window_spec.
  fold left top right bottom.
  destruct image as [h w rs]. destruct Hs as [Hh Hw].
  cbn [height width rows] in *. subst h.
  unfold slice2. cbn [height width rows].
  split; [|split].
  - rewrite length_map, slice_length.
    rewrite (adjust_nonneg _ top), (adjust_nonneg _ bottom) by lia. lia.
  - rewrite (adjust_nonneg _ left), (adjust_nonneg _ right) by lia. lia.
  - intros r c Hr Hc. unfold pixel_at. cbn [rows].
    rewrite nth_error_map, nth_error_slice by lia.
    destruct (nth_error rs (Z.to_nat top + r)) as [row|] eqn:E; [|reflexivity].
    cbn [option_map].
    apply nth_error_slice; try lia.
    apply nth_error_In in E.
    rewrite (proj1 (Forall_forall _ _) Hw row E). lia.
Qed.

Lemma crop_image_pixels_witness :
  well_shaped image_2x3 /\
  height (crop_image (mkBoundingBox 1 (-3) 7 1 0) image_2x3) = 1%nat /\
  width (crop_image (mkBoundingBox 1 (-3) 7 1 0) image_2x3) = 2%nat /\
  pixel_at (crop_image (mkBoundingBox 1 (-3) 7 1 0) image_2x3) 0 1 = Some 3%nat.
Proof.
  assert (Hs : well_shaped image_2x3).
  { split; [reflexivity|]. repeat constructor. }
  split; [exact Hs|].
  destruct (crop_image_pixels (mkBoundingBox 1 (-3) 7 1 0) image_2x3 Hs)
    as (Hh & Hw & Hp); [cbn; lia|cbn; lia|].
  split; [exact Hh|]. split; [exact Hw|].
  rewrite (Hp 0%nat 1%nat); [reflexivity|cbn; lia|cbn; lia].
Defined.

(** X14. The clamping does not keep a negative right coordinate out of
    the slice, where it counts from the right edge: the crop of a box
    that lies wholly left of the image is not empty but holds the columns
    of the image up to that distance from its right edge. *)
Theorem crop_image_negative_right_wraps {pixel} (self : BoundingBox)
    (image : ndarray pixel) :
  x1 self <= 0 -> x2 self < 0 ->
  width (crop_image self image) = Z.to_nat (Z.of_nat (width image) + x2 self).
Proof.
  intros H1 H2. rewrite crop_image_unfold. rewrite crop_window_spec.
  unfold slice2. cbn [width].
  rewrite (Z.max_r (x1 self) 0), (Z.min_l (x2 self)) by lia.
  unfold Py.adjust.
  destruct (Z.ltb_spec (x2 self) 0); [|lia].
  replace (0 <? 0) with false by reflexivity.
  lia.
Qed.

Lemma crop_image_negative_right_wraps_witness :
  -5 <= 0 /\ -1 < 0 /\
  width (crop_image (mkBoundingBox (-5) 0 (-1) 2 0) image_2x3) = 2%nat /\
  rows (crop_image (mkBoundingBox (-5) 0 (-1) 2 0) image_2x3) = [[1; 2]; [4; 5]]%nat.
Proof.
  split; [lia|]. split; [lia|]. split.
  - apply (crop_image_negative_right_wraps (mkBoundingBox (-5) 0 (-1) 2 0) image_2x3);
      cbn; lia.
  - reflexivity.
Defined.

(** ** [merge_intersection]: what does hold of its result *)

(** X15. Every box of the collection lies in a box of the result whose
    score is at least as high. *)
Theorem merge_intersection_dominates (self : BoundingBoxes) :
  Forall (dominated_by (boxes (merge_intersection self))) (boxes self).
Proof.
  unfold merge_intersection. cbn [boxes].
  apply (merged_above dominates dominates_refl dominates_trans
           merge_dominates_l merge_dominates_r (length (boxes self))).
  lia.
Qed.

(** X16. No score is invented: every box of the result contains a box of
    the collection that has exactly its score. *)
Theorem merge_intersection_scores_from_input (self : BoundingBoxes) :
  Forall (scored_from (boxes self)) (boxes (merge_intersection self)).
Proof.
  unfold merge_intersection. cbn [boxes].
  apply (merged_closed _ (scored_merge (boxes self)) _ _ (Nat.le_refl _)).
  apply scored_from_self.
Qed.

(** X17. If every box of the collection has its corners in order, so has
    every box of the result. *)
Theorem merge_intersection_keeps_well_formed (self : BoundingBoxes) :
  Forall well_formed (boxes self) ->
  Forall well_formed (boxes (merge_intersection self)).
Proof.
  unfold merge_intersection. cbn [boxes].
  apply (merged_closed _ merge_well_formed _ _ (Nat.le_refl _)).
Qed.

Lemma merge_intersection_keeps_well_formed_witness :
  Forall well_formed (boxes skipped_overlap) /\
  Forall well_formed (boxes (merge_intersection skipped_overlap)).
Proof.
  assert (H : Forall well_formed (boxes skipped_overlap))
    by (repeat constructor; cbn; lia).
  split; [exact H|].
  exact (merge_intersection_keeps_well_formed skipped_overlap H).
Defined.

(** X18. The result never reaches outside a region that contains the
    whole collection: a box that contains every box of the collection
    contains every box of the result. *)
Theorem merge_intersection_stays_inside (self : BoundingBoxes) (region : BoundingBox) :
  Forall (encloses region) (boxes self) ->
  Forall (encloses region) (boxes (merge_intersection self)).
Proof.
  unfold merge_intersection. cbn [boxes].
  apply (merged_closed (encloses region)
           (fun a b Ha Hb _ => merge_least a b region Ha Hb) _ _ (Nat.le_refl _)).
Qed.

Lemma merge_intersection_stays_inside_witness :
  Forall (encloses (mkBoundingBox 0 0 30 30 0)) (boxes skipped_overlap) /\
  Forall (encloses (mkBoundingBox 0 0 30 30 0))
         (boxes (merge_intersection skipped_overlap)).
Proof.
  assert (H : Forall (encloses (mkBoundingBox 0 0 30 30 0)) (boxes skipped_overlap))
    by (repeat constructor; cbn; lia).
  split; [exact H|].
  exact (merge_intersection_stays_inside skipped_overlap _ H).
Defined.

(** A scan that keeps as many boxes as it was given merged nothing. *)
Lemma scan_keeps_all (rest : list BoundingBox) :
  forall c, length (snd (scan c rest)) = length rest ->
    scan c rest = (c, rest) /\ settled c rest.
Proof.
  induction rest as [|b rest IH]; intros c Hl.
  - split; [reflexivity|intros ? []].
  - destruct (intersects c b) eqn:E.
    + rewrite (scan_hit _ _ _ E) in Hl.
      pose proof (scan_length (merge c b) rest). cbn [length] in Hl. lia.
    + rewrite (scan_miss _ _ _ E) in *. cbn [fst snd length] in Hl.
      destruct (IH c) as [Hs Hset]; [lia|].
      rewrite Hs. cbn [fst snd]. split; [reflexivity|].
      intros x [<-|Hx]; [exact E|exact (Hset x Hx)].
Qed.

Lemma non_intersecting_cons_intro (b : BoundingBox) (rest : list BoundingBox) :
  settled b rest -> non_intersecting rest -> non_intersecting (b :: rest).
Proof.
  intros Hs Hr [|i] [|j] a c Hij Ha Hc; cbn [nth_error] in Ha, Hc.
  - congruence.
  - injection Ha as <-. apply Hs. eapply nth_error_In, Hc.
  - injection Hc as <-. rewrite intersects_sym. apply Hs.
    eapply nth_error_In, Ha.
  - apply (Hr i j); [congruence|exact Ha|exact Hc].
Qed.

Lemma merged_same_length (n : nat) :
  forall l, (length l <= n)%nat ->
    length (outer_while l []) = length l -> non_intersecting l.
Proof.
  induction n as [|n IH]; intros [|b rest] Hn Hl; cbn [length] in Hn; try lia;
    try (intros [|i] j a c _ Ha; discriminate Ha).
  rewrite merged_cons in Hl. cbn [length] in Hl.
  pose proof (scan_length b rest) as Hk.
  pose proof (merged_length (length (snd (scan b rest))) _ (Nat.le_refl _)) as Hm.
  destruct (scan_keeps_all rest b) as [Hs Hset]; [lia|].
  rewrite Hs in Hl. cbn [snd] in Hl.
  apply non_intersecting_cons_intro; [exact Hset|].
  apply IH; [lia|]. lia.
Qed.

(** X19. [merge_intersection] leaves a collection as it is exactly when
    no two of its boxes intersect, which is also exactly when it returns
    as many boxes as it was given. *)
Theorem merge_intersection_fixed_points (self : BoundingBoxes) :
  (merge_intersection self = self <-> non_intersecting (boxes self)) /\
  (len (merge_intersection self) = len self <-> non_intersecting (boxes self)).
Proof.
  assert (Hlen : len (merge_intersection self) = len self ->
                 non_intersecting (boxes self)).
  { unfold len, merge_intersection. cbn [boxes].
    apply (merged_same_length (length (boxes self))). lia. }
  split; split.
  - intros H. apply Hlen. rewrite H. reflexivity.
  - apply merge_intersection_fixes_non_intersecting.
  - exact Hlen.
  - intros H. rewrite (merge_intersection_fixes_non_intersecting self H).
    reflexivity.
Qed.

(** X20. On a collection of at most two boxes the result is
    non-intersecting; the single pass only shows from three boxes on. *)
Theorem merge_intersection_correct_up_to_two (self : BoundingBoxes) :
  (len self <= 2)%nat -> non_intersecting (boxes (merge_intersection self)).
Proof.
  destruct self as [[|a [|b [|c l]]]]; unfold len, merge_intersection;
    cbn [boxes length]; intros Hl; try lia.
  - rewrite outer_while_nil. intros [|i] j x y _ Hx; discriminate Hx.
  - rewrite merged_cons. cbn [scan fst snd]. rewrite outer_while_nil.
    apply non_intersecting_single.
  - rewrite merged_cons. cbn [scan]. destruct (intersects a b) eqn:E; cbn [fst snd].
    + rewrite outer_while_nil. apply non_intersecting_single.
    + rewrite merged_cons. cbn [scan fst snd]. rewrite outer_while_nil.
      apply non_intersecting_cons_intro; [|apply non_intersecting_single].
      intros x [<-|[]]. exact E.
Qed.

Lemma merge_intersection_correct_up_to_two_witness :
  (len (mkBoundingBoxes [box_a; box_c]) <= 2)%nat /\
  non_intersecting (boxes (merge_intersection (mkBoundingBoxes [box_a; box_c]))).
Proof.
  split; [cbn; lia|].
  apply (merge_intersection_correct_up_to_two (mkBoundingBoxes [box_a; box_c])).
  cbn. lia.
Defined.

Lemma scan_kept_miss_seed (rest : list BoundingBox) :
  forall c seed, encloses c seed -> settled seed (snd (scan c rest)).
Proof.
  induction rest as [|b rest IH]; intros c seed Hc; [intros ? []|].
  destruct (intersects c b) eqn:E.
  - rewrite (scan_hit _ _ _ E). apply IH.
    eapply encloses_trans; [apply merge_encloses_l|exact Hc].
  - rewrite (scan_miss _ _ _ E). cbn [snd].
    intros x [<-|Hx]; [|exact (IH c seed Hc x Hx)].
    destruct (intersects seed b) eqn:E'; [|reflexivity].
    rewrite (intersects_mono _ _ _ _ Hc (encloses_refl b) E') in E. discriminate E.
Qed.

(** X21. What one pass of the inner loop does achieve: the accumulator it
    ends with contains the seed, and no box it leaves in the collection
    intersects the seed. *)
Theorem inner_while_settles_seed (current_box : BoundingBox) (boxes : list BoundingBox) :
  encloses (fst (inner_while current_box boxes 0)) current_box /\
  settled current_box (snd (inner_while current_box boxes 0)).
Proof.
  rewrite inner_while_0. split.
  - apply (scan_above_seed encloses encloses_refl encloses_trans merge_encloses_l).
  - apply scan_kept_miss_seed, encloses_refl.
Qed.

(** X22. If the results for two orders of the same well-formed boxes are
    both non-intersecting, they hold the same boxes: each box of one is a
    box of the other, corners and score. *)
Theorem merge_intersection_order_irrelevant_both_ways (self other : BoundingBoxes) :
  Permutation (boxes self) (boxes other) ->
  Forall well_formed (boxes self) ->
  non_intersecting (boxes (merge_intersection self)) ->
  non_intersecting (boxes (merge_intersection other)) ->
  Forall (fun r => Exists (same_box r) (boxes (merge_intersection other)))
         (boxes (merge_intersection self)) /\
  Forall (fun r => Exists (same_box r) (boxes (merge_intersection self)))
         (boxes (merge_intersection other)).
Proof.
  intros Hp Hwf Hni Hni'. split.
  - apply order_irrelevant_when_non_intersecting; assumption.
  - apply order_irrelevant_when_non_intersecting; try assumption.
    + apply Permutation_sym, Hp.
    + exact (Permutation_Forall Hp Hwf).
Qed.

Lemma merge_intersection_order_irrelevant_both_ways_witness :
  Forall (fun r => Exists (same_box r) (boxes (merge_intersection chain_reordered)))
         (boxes (merge_intersection chain)) /\
  Forall (fun r => Exists (same_box r) (boxes (merge_intersection chain)))
         (boxes (merge_intersection chain_reordered)).
Proof.
  apply (merge_intersection_order_irrelevant_both_ways chain chain_reordered).
  - cbn. apply Permutation_sym.
    eapply perm_trans; [apply perm_skip, perm_swap|apply perm_swap].
  - repeat constructor; cbn; lia.
  - rewrite (proj1 chain_merges_to_one_box). apply non_intersecting_single.
  - rewrite (proj2 chain_merges_to_one_box). apply non_intersecting_single.
Defined.

(** X23. The accumulator the inner loop ends with is the left fold of the
    collection, each box merged into the accumulator when it intersects
    it and passed over otherwise. *)
Theorem inner_while_is_fold (current_box : BoundingBox) (boxes : list BoundingBox) :
  fst (inner_while current_box boxes 0) =
    fold_left (fun acc b => if intersects acc b then merge acc b else acc)
              boxes current_box.
Proof.
  rewrite inner_while_0.
  revert current_box. induction boxes as [|b rest IH]; intros c; [reflexivity|].
  cbn [fold_left]. destruct (intersects c b) eqn:E.
  - rewrite (scan_hit _ _ _ E). apply IH.
  - rewrite (scan_miss _ _ _ E). cbn [fst]. apply IH.
Qed.

(** ** [get_candidate_blocks] *)

Section CandidateProperties.
Context {num : Type} {number : Py.Number num} {pixel : Type}.

Lemma get_candidate_blocks_cons (block : Lp.TextBlock num)
    (layout : list (Lp.TextBlock num)) (image : ndarray pixel) (m : Z)
    (t : String.string) :
  get_candidate_blocks (block :: layout) image m t =
  if String.eqb (Lp.type block) t then
    (let g := grown_box image m block in
     (slice2 image (y1 g) (y2 g) (x1 g) (x2 g), g))
      :: get_candidate_blocks layout image m t
  else get_candidate_blocks layout image m t.
Proof.
  cbn [get_candidate_blocks].
  destruct (String.eqb (Lp.type block) t); cbn [negb]; [|reflexivity].
  rewrite !max_int_spec, !min_int_spec. reflexivity.
Qed.


Lemma crop_image_grown_box (image : ndarray pixel) (m : Z) (block : Lp.TextBlock num) :
  crop_image (grown_box image m block) image =
  (let g := grown_box image m block in slice2 image (y1 g) (y2 g) (x1 g) (x2 g)).
Proof.
  rewrite crop_image_unfold, crop_window_spec.
  unfold grown_box. cbn [x1 y1 x2 y2].
  rewrite !(Z.max_l (Z.max _ 0) 0) by lia.
  rewrite <- !Z.min_assoc, !Z.min_id. reflexivity.
Qed.



End CandidateProperties.

(** A layout with float coordinates: the block [(0.4, 0.6, 2.2, 1.3)] on
    an image 3 wide and 2 high gives the rectangle [(0, 0, 3, 2)]. *)
Example get_candidate_blocks_rounds_outwards :
  map snd (get_candidate_blocks
             [Lp.mkTextBlock Labels.table (9 # 10) (2 # 5) (3 # 5) (11 # 5) (13 # 10)]
             image_2x3 0 Labels.table) =
  [mkBoundingBox 0 0 3 2 0].
Proof. reflexivity. Qed.

(** At [int] coordinates the rounding does nothing. *)
Lemma grown_box_int {pixel} (image : ndarray pixel) (m : Z) (block : Lp.TextBlock Z) :
  grown_box image m block =
  mkBoundingBox (Z.max (Lp.x_1 block - m) 0) (Z.max (Lp.y_1 block - m) 0)
                (Z.min (Lp.x_2 block + m) (Z.of_nat (width image)))
                (Z.min (Lp.y_2 block + m) (Z.of_nat (height image))) 0.
Proof.
  unfold grown_box, Py.value, Py.int_number.
  unfold Qminus. rewrite <- !inject_Z_opp, <- !inject_Z_plus.
  rewrite !Qfloor_Z, !Qceiling_Z. reflexivity.
Qed.



(** ** [double_detection] and [get_all_tables] *)

Lemma add_tables_spec (filtered : list (Lp.TextBlock Z)) (block_rect : BoundingBox) :
  forall all_boxes,
    add_tables all_boxes filtered block_rect =
    Some (mkBoundingBoxes
            (boxes all_boxes ++
             map (fun table => translate (block_box table) (x1 block_rect) (y1 block_rect))
                 filtered)).
Proof.
  induction filtered as [|table filtered IH]; intros all_boxes.
  - cbn [add_tables map]. rewrite app_nil_r. destruct all_boxes; reflexivity.
  - cbn [add_tables map]. unfold from_relative, to_list.
    rewrite slice_first_two, IH. unfold add_box. cbn [boxes].
    rewrite <- app_assoc. reflexivity.
Qed.

Lemma double_detection_from_spec {pixel} (detect : ndarray pixel -> list (Lp.TextBlock Z))
    (score_thresh : Q) (candidate_blocks : list (ndarray pixel * BoundingBox)) :
  forall all_boxes,
    double_detection_from detect all_boxes candidate_blocks score_thresh =
    Some (mkBoundingBoxes
            (boxes all_boxes ++
             flat_map (second_pass_boxes detect score_thresh) candidate_blocks)).
Proof.
  induction candidate_blocks as [|[block block_rect] rest IH]; intros all_boxes.
  - cbn [double_detection_from flat_map]. rewrite app_nil_r.
    destruct all_boxes; reflexivity.
  - cbn [double_detection_from flat_map]. unfold get_layout.
    rewrite add_tables_spec, IH. cbn [boxes].
    rewrite <- app_assoc. reflexivity.
Qed.

(** X27. [double_detection] never raises: the lists it hands to
    [from_relative] always have the lengths that it needs.  It returns,
    candidate after candidate, the boxes that the model finds in the
    candidate's image with a score strictly above the threshold, each
    translated by the top-left corner of the candidate's rectangle. *)
Theorem double_detection_boxes {pixel} (detect : ndarray pixel -> list (Lp.TextBlock Z))
    (candidate_blocks : list (ndarray pixel * BoundingBox))
    (score_thresh : Q) (space_margin : Z) :
  double_detection detect candidate_blocks score_thresh space_margin =
  Some (mkBoundingBoxes
          (flat_map (second_pass_boxes detect score_thresh) candidate_blocks)).
Proof.
  unfold double_detection. rewrite double_detection_from_spec. reflexivity.
Qed.

Lemma get_all_tables_spec {pixel} (detect : ndarray pixel -> list (Lp.TextBlock Z))
    (image : ndarray pixel) (score_thresh : Q) (space_margin : Z)
    (block_type : String.string) :
  get_all_tables detect image score_thresh space_margin block_type =
  Some (mkBoundingBoxes
          (flat_map (second_pass_boxes detect score_thresh)
                    (get_candidate_blocks (detect image) image space_margin block_type))).
Proof.
  unfold get_all_tables, double_detection, get_layout.
  rewrite double_detection_from_spec. reflexivity.
Qed.

Lemma float_ltb_lt (a b : Q) : Py.float_ltb a b = true -> (a < b)%Q.
Proof.
  unfold Py.float_ltb. intros H. apply Qlt_alt.
  destruct (a ?= b)%Q; [discriminate|reflexivity|discriminate].
Qed.

Lemma second_pass_boxes_scores {pixel} (detect : ndarray pixel -> list (Lp.TextBlock Z))
    (score_thresh : Q) (candidate : ndarray pixel * BoundingBox) :
  Forall (fun b => (score_thresh < score b)%Q)
         (second_pass_boxes detect score_thresh candidate).
Proof.
  unfold second_pass_boxes. apply Forall_map, Forall_forall.
  intros table Ht. apply filter_In in Ht as [_ Ht].
  unfold translate, block_box. cbn [score]. apply float_ltb_lt, Ht.
Qed.

(** X28. The threshold is strict and survives the merging: every box
    that [get_all_tables] returns, and every box left after
    [merge_intersection], has a score strictly above the threshold. *)
Theorem get_all_tables_scores_above_threshold {pixel}
    (detect : ndarray pixel -> list (Lp.TextBlock Z)) (image : ndarray pixel)
    (score_thresh : Q) (space_margin : Z) (block_type : String.string) :
  match get_all_tables detect image score_thresh space_margin block_type with
  | Some all_boxes =>
      Forall (fun b => (score_thresh < score b)%Q) (boxes all_boxes) /\
      Forall (fun b => (score_thresh < score b)%Q)
             (boxes (merge_intersection all_boxes))
  | None => False
  end.
Proof.
  rewrite get_all_tables_spec.
  set (found := flat_map _ _).
  assert (Hall : Forall (fun b => (score_thresh < score b)%Q) found).
  { apply Forall_forall. intros b Hb. apply in_flat_map in Hb as (cand & _ & Hb).
    exact (proj1 (Forall_forall _ _)
             (second_pass_boxes_scores detect score_thresh cand) b Hb). }
  split; [exact Hall|].
  apply Forall_forall. intros r Hr.
  pose proof (merged_scored found) as Hs.
  unfold merge_intersection in Hr. cbn [boxes] in Hr.
  apply (proj1 (Forall_forall _ _) Hs) in Hr.
  apply Exists_exists in Hr as (b & Hb & _ & Hsc).
  rewrite Hsc. exact (proj1 (Forall_forall _ _) Hall b Hb).
Qed.

Lemma candidate_from_block {pixel} (layout : list (Lp.TextBlock Z)) (image : ndarray pixel)
    (m : Z) (t : String.string) (candidate : ndarray pixel * BoundingBox) :
  In candidate (get_candidate_blocks layout image m t) ->
  exists block, In block layout /\
    candidate = (crop_image (grown_box image m block) image, grown_box image m block).
Proof.
  induction layout as [|b layout IH]; [intros []|].
  rewrite get_candidate_blocks_cons.
  destruct (String.eqb (Lp.type b) t).
  - intros [<-|Hin].
    + exists b. split; [left; reflexivity|].
      rewrite crop_image_grown_box. reflexivity.
    + destruct (IH Hin) as (block & Hb & Hc). exists block. split; [right|]; assumption.
  - intros Hin. destruct (IH Hin) as (block & Hb & Hc).
    exists block. split; [right|]; assumption.
Qed.

Lemma crop_image_size {pixel} (self : BoundingBox) (image : ndarray pixel) :
  well_shaped image -> well_formed self -> encloses (image_box image) self ->
  Z.of_nat (height (crop_image self image)) = y2 self - y1 self /\
  Z.of_nat (width (crop_image self image)) = x2 self - x1 self.
Proof.
  intros [Hh Hw] [Hx Hy] (H1 & H2 & H3 & H4). cbn [image_box x1 y1 x2 y2] in *.
  rewrite crop_image_unfold. rewrite crop_window_spec.
  unfold slice2. cbn [height width]. rewrite length_map, slice_length, Hh.
  rewrite !adjust_nonneg by lia. lia.
Qed.

(** The boxes that lie, corners in order, within the image. *)
Lemma inside_closed_under_merge {pixel} (image : ndarray pixel) (a b : BoundingBox) :
  well_formed a /\ encloses (image_box image) a ->
  well_formed b /\ encloses (image_box image) b ->
  intersects a b = true ->
  well_formed (merge a b) /\ encloses (image_box image) (merge a b).
Proof.
  intros [Ha Ha'] [Hb Hb'] Hab. split.
  - apply merge_well_formed; assumption.
  - apply merge_least; assumption.
Qed.

(** X29. When the model reports, in whatever image it is given, boxes
    with their corners in order that lie within that image, and the
    margin is not negative, every box that the pipeline ends with, after
    [get_all_tables] and [merge_intersection], has its corners in order
    and lies within the image. *)
Theorem pipeline_boxes_within_image {pixel}
    (detect : ndarray pixel -> list (Lp.TextBlock Z)) (image : ndarray pixel)
    (score_thresh : Q) (space_margin : Z) (block_type : String.string) :
  detector_in_bounds detect -> well_shaped image -> 0 <= space_margin ->
  match get_all_tables detect image score_thresh space_margin block_type with
  | Some all_boxes =>
      Forall (fun b => well_formed b /\ encloses (image_box image) b)
             (boxes (merge_intersection all_boxes))
  | None => False
  end.
Proof.
  intros Hdet Himg Hm. rewrite get_all_tables_spec.
  unfold merge_intersection. cbn [boxes].
  apply (merged_closed _ (inside_closed_under_merge image) _ _ (Nat.le_refl _)).
  apply Forall_forall. intros b Hb.
  apply in_flat_map in Hb as (cand & Hcand & Hb).
  apply candidate_from_block in Hcand as (block & Hblock & ->).
  set (g := grown_box image space_margin block) in *.
  destruct (proj1 (Forall_forall _ _) (Hdet image Himg) block Hblock) as [Hwf Hin].
  assert (Hg : well_formed g /\ encloses (image_box image) g).
  { revert Hwf Hin. unfold g. rewrite grown_box_int.
    unfold well_formed, encloses, image_box, block_box.
    cbn [x1 y1 x2 y2]. lia. }
  destruct Hg as [Hgw Hgi].
  destruct (crop_image_size g image Himg Hgw Hgi) as [Hh Hw].
  assert (Hcrop : well_shaped (crop_image g image)).
  { rewrite crop_image_unfold. destruct (crop_window g image) as [[[? ?] ?] ?].
    apply slice2_well_shaped, Himg. }
  unfold second_pass_boxes in Hb. cbn [fst snd] in Hb.
  apply in_map_iff in Hb as (table & <- & Htable).
  apply filter_In in Htable as [Htable _].
  destruct (proj1 (Forall_forall _ _) (Hdet _ Hcrop) table Htable) as [Htw Hti].
  revert Htw Hti Hgw Hgi Hh Hw.
  unfold well_formed, encloses, image_box, translate. cbn [x1 y1 x2 y2].
  lia.
Qed.

Lemma whole_image_detector_in_bounds : detector_in_bounds whole_image_detector.
Proof.
  intros image _. repeat constructor; cbn; lia.
Qed.

Lemma pipeline_boxes_within_image_witness :
  get_all_tables whole_image_detector image_2x3 (1 # 2) 0 Labels.table =
    Some (mkBoundingBoxes [mkBoundingBox 0 0 3 2 (9 # 10)]) /\
  match get_all_tables whole_image_detector image_2x3 (1 # 2) 0 Labels.table with
  | Some all_boxes =>
      Forall (fun b => well_formed b /\ encloses (image_box image_2x3) b)
             (boxes (merge_intersection all_boxes))
  | None => False
  end.
Proof.
  split; [reflexivity|].
  apply (pipeline_boxes_within_image whole_image_detector image_2x3 (1 # 2) 0
           Labels.table whole_image_detector_in_bounds).
  - split; [reflexivity|]. repeat constructor.
  - lia.
Defined.

(** X30. When the first pass finds no block of the requested type,
    [get_all_tables] returns an empty collection, without running the
    model a second time. *)
Theorem get_all_tables_no_candidate {pixel}
    (detect : ndarray pixel -> list (Lp.TextBlock Z)) (image : ndarray pixel)
    (score_thresh : Q) (space_margin : Z) (block_type : String.string) :
  Forall (fun block => String.eqb (Lp.type block) block_type = false) (detect image) ->
  get_candidate_blocks (detect image) image space_margin block_type = [] /\
  get_all_tables detect image score_thresh space_margin block_type =
    Some (mkBoundingBoxes []).
Proof.
  intros Hnone.
  assert (Hc : get_candidate_blocks (detect image) image space_margin block_type = []).
  { induction Hnone as [|block layout Hb _ IH]; [reflexivity|].
    rewrite get_candidate_blocks_cons, Hb. exact IH. }
  split; [exact Hc|].
  rewrite get_all_tables_spec, Hc. reflexivity.
Qed.

Lemma get_all_tables_no_candidate_witness :
  get_all_tables whole_image_detector image_2x3 (1 # 2) 0 Labels.figure =
    Some (mkBoundingBoxes []).
Proof.
  apply (get_all_tables_no_candidate whole_image_detector image_2x3 (1 # 2) 0
           Labels.figure).
  repeat constructor.
Defined.
